(* ===== verification/_CoqProject ===== *)
-Q . S2P
Prelude.v
PyStr.v
Loader.v
Mirror.v
PyCounter.v
DigitAnalyzer.v
PairCounter.v
Report.v
Bot.v
Concurrency.v
