(* ===== verification/Prelude.v ===== *)
(** * A verified model of Predictor-Togel-Bot

    The repository is one Python file, [src/main.py].  Its core is an
    analysis engine that reads a text file of past draws (one number per
    line), counts digit frequencies, recommends the most frequent digits as a
    "BBFS" set, maps them through a fixed mirror bijection and ranks the
    pairs of digits that occur together in a draw.  Around it sits a
    Telegram bot: [main] registers five handlers, and the handler of
    [/analisis] downloads the replied-to file to [history_<id>.txt], calls
    the engine and sends the report back before deleting the file.

    ** The parts of the program and the files that model them

    The library root is this file; the others follow in dependency order.

    - [Prelude] (this file): the [bbfs] hint database, the [py_scope]
      notation scope, the [occ] multiplicity of an element in a list, the
      generic list lemmas the components share and the tactics
      [case_contra], [bbfs_simp] and [by_decide].
    - [PyStr]: Python's [str] as a list of Unicode code points ([list N]).
      The Unicode database that [str.isdigit], [str.isspace] and [int()]
      consult is an interface, the type class [PyUnicode], whose laws are
      the facts the program relies on; the instance [ucd] gives the table
      on Latin-1 and the digit blocks used in the examples.  [PyStr] models
      [str.strip], [int(str)] ([py_int]: sign, underscores, surrounding
      blanks, [None] for [ValueError]) and [str(int)] ([py_str_Z]).
    - [Loader]: [baca_history_dari_file] (lines 32-43) over a file system
      [gmap pystr fs_entry]: the outcome of [open]/[read] as a sum type,
      universal newlines, [readlines], [strip] and the blank-line filter.
    - [Mirror]: [mirror_number] (lines 24-28), a [gmap Z Z] with the
      [.get] default.
    - [PyCounter]: [collections.Counter] as an insertion-ordered association
      list, its [+= 1], [Counter(iterable)] and [most_common(n)] as the
      stable descending sort cut at [n] (Python's library, modelled from its
      documented contract).
    - [DigitAnalyzer]: [analisis_digit] (lines 47-61): the flat digit list
      and the [defaultdict(list)] of digits by position, a [gmap nat (list Z)].
    - [PairCounter]: [hitung_angka_ikut] (lines 64-73): per token the sorted
      set of its characters and the double index loop over [isdigit] pairs.
    - [Report]: [generate_bbfs_prediktif] (lines 76-111), the whole text,
      [None] standing for an exception escaping the function.
    - [Bot]: the handlers [start], [help_command], [handle_document],
      [analisis_command], [handle_text] (lines 119-196) as functions on a
      [World] (files and the log of sent replies and raised exceptions);
      [main] (lines 199-219) as the token check and its [print], the
      library's [build()] failing on a missing token, the handler list with
      the library's filters ([dispatch]), the [print] before polling and
      [run_polling] over the updates received, one at a time as the library
      does by default.  An update is one of the four kinds the handlers can
      receive ([incoming]: new or edited message, channel post or edited
      post); only a new message has [update.message], and a handler given
      another kind raises [AttributeError] ([handle_update]).  Command
      parsing follows the library's documentation: a [bot_command] entity
      at the start of the text ([command_entity]), an [@username] suffix
      that must name this bot ([command_of], with the bot's username a
      parameter), and [context.args].
    - [Concurrency]: [analisis_command] as a coroutine: a [task] holds the
      update, the locals and the [await] it is suspended at; [segment] runs
      the code up to the next [await]; [cstep] is the event loop running one
      segment of one task, so interleavings of several handlers (the
      library's concurrent-updates mode) are the sequences of [cstep]s.
      [download_to_drive] writes the file when its network fetch returns,
      and the handler reads it, analyses it and calls [reply_text] before
      its next [await]: that write, read, analysis and reply are one
      segment.

    ** What the theorems show

    - Engine: the flat digit list is exactly the decimal characters in
      order, with values in [0..9]; the position map accounts for every
      digit; a pair's count is the number of tokens containing both
      characters; the recommended set holds the most frequent digits, ties
      to the digit seen first, [min(top_n, k)] of them; the canned messages
      come exactly on empty and digit-free histories; the mirror is an
      involution, [(d + 5) mod 10] on digits and the identity elsewhere;
      the pair counter equals the specification's, which validates the
      characters before de-duplicating and sorting them; the well-formedness
      of the analyzer's state is an inductive invariant of its loops; the
      disclaimer ends a report exactly when the history has a digit.
    - Loader: tokens are non-empty and stripped, a file written one token
      per line (LF or CRLF) loads back as the same tokens, and [[]] is
      returned for a missing, unreadable or blank file alike.
    - Bot: a valid [/analisis] sends the waiting message and exactly the
      engine's report of the replied-to file, then removes the file; the two
      guards answer with their messages; [top_n] is the argument's integer
      (negative included) or 7; the dispatcher routes each kind of new
      message, leaves unknown commands and commands for another bot
      unanswered, and makes an edited message or a channel post raise
      [AttributeError]; processed one at a time, a sequence of updates
      leaves no temporary file and raises nothing else; a document written one token per line is
      answered with the report of exactly those tokens (loader, engine and
      handler composed); [main] prints, fails or polls as its token says.
    - Concurrency: five segments run alone are exactly [analisis_command];
      every interleaving is finite ([cstep_wf]); whatever the users, every
      finished handler reported on its own file (a per-task invariant
      preserved by every step); handlers of distinct users are safe under
      any interleaving (with a file invariant that needs distinct users);
      for two valid requests of one user there is an interleaving in which
      both get their reports and the second [os.remove] raises
      [FileNotFoundError].

    ** Bounds and fuel

    Loops over lists are structural recursion.  The only fuel is
    [run_task]'s: a task has five [await]s, so five segments finish it,
    which [run_task_analisis] proves; [pc_rank] bounds the segments left
    and makes [cstep] well founded.  Python integers are unbounded and are
    [Z] (values) and [nat] (lengths, counts); user ids are [Z].

    ** Not modelled

    Logging (lines 11-16 and the two [logger.error] calls of the loader)
    only writes diagnostics and changes nothing the program computes;
    the [if __name__ == '__main__'] guard only calls [main].  The network side of the library (long polling, message sizes)
    and the byte decoding of files are not modelled; a decoding error is
    the [Unreadable] outcome of [Loader].  [user.mention_html()] is a
    parameter of [start]. *)

From stdpp Require Export base list gmap sorting.
From Stdlib Require Export ZArith Lia.

Declare Scope py_scope.
Delimit Scope py_scope with py.

Create HintDb bbfs discriminated.
Create Rewrite HintDb bbfs.

(** ** Multiplicity of an element in a list *)

Section Occ.
Context {A : Type} `{EqDecision A}.

(** [occ x l] is the number of times [x] occurs in [l]; it is what
    Python's [Counter] stores for [x]. *)
Definition occ (x : A) (l : list A) : nat := length (filter (λ y, y = x) l).

Lemma occ_nil x : occ x [] = 0.
Proof. done. Qed.

Lemma occ_app x l1 l2 : occ x (l1 ++ l2) = occ x l1 + occ x l2.
Proof. unfold occ. by rewrite filter_app, length_app. Qed.

Lemma occ_cons x y l : occ x (y :: l) = (if decide (y = x) then 1 else 0) + occ x l.
Proof. unfold occ. rewrite filter_cons. by case_decide. Qed.

Lemma occ_cons_eq x l : occ x (x :: l) = S (occ x l).
Proof. rewrite occ_cons. by case_decide. Qed.

Lemma occ_cons_ne x y l : y ≠ x → occ x (y :: l) = occ x l.
Proof. intros. rewrite occ_cons. by case_decide. Qed.

Lemma occ_pos x l : 0 < occ x l ↔ x ∈ l.
Proof.
  induction l as [|y l IH]; [rewrite elem_of_nil; cbn; lia|].
  rewrite occ_cons, elem_of_cons. case_decide; subst; [split; auto; lia|].
  rewrite IH. naive_solver.
Qed.

Lemma occ_zero x l : x ∉ l → occ x l = 0.
Proof. rewrite <- occ_pos. lia. Qed.

Lemma occ_Permutation x l1 l2 : l1 ≡ₚ l2 → occ x l1 = occ x l2.
Proof. intros Hp. unfold occ. by rewrite Hp. Qed.

Lemma occ_le_length x l : occ x l ≤ length l.
Proof. unfold occ. apply length_filter. Qed.

(** In a list without duplicates an element occurs at most once. *)
Lemma occ_NoDup x l : NoDup l → occ x l = if decide (x ∈ l) then 1 else 0.
Proof.
  induction 1 as [|y l Hy Hnd IH]; [done|].
  rewrite occ_cons, IH. repeat case_decide; set_solver.
Qed.

Lemma occ_filter (P : A → Prop) `{∀ x, Decision (P x)} x l :
  occ x (filter P l) = if decide (P x) then occ x l else 0.
Proof.
  induction l as [|y l IH]; [by case_decide|].
  rewrite filter_cons, !occ_cons.
  destruct (decide (y = x)) as [->|]; repeat case_decide; rewrite ?occ_cons; simplify_eq/=;
    rewrite ?IH; try case_decide; done || lia.
Qed.
End Occ.

#[export] Hint Rewrite @occ_app @occ_nil : bbfs.
#[export] Hint Resolve occ_le_length : bbfs.

(** ** Lists: generic lemmas shared by the components *)

Lemma NoDup_fmap_fst_app {A B} (l1 l2 : list (A * B)) :
  NoDup (l1 ++ l2).*1 ↔ NoDup l1.*1 ∧ NoDup l2.*1 ∧ (∀ k, k ∈ l1.*1 → k ∉ l2.*1).
Proof.
  rewrite fmap_app, NoDup_app. naive_solver.
Qed.

(** A list sorted by an irreflexive relation has no duplicates. *)
Lemma StronglySorted_irrefl_NoDup {A} (R : relation A) (l : list A) :
  Irreflexive R → StronglySorted R l → NoDup l.
Proof.
  intros Hirr. induction 1 as [|x l _ IH Hx]; constructor; [|done].
  rewrite Forall_forall in Hx. intros Hin. by apply (Hirr x), Hx.
Qed.

Lemma StronglySorted_filter {A} (R : relation A) (P : A → Prop) `{∀ x, Decision (P x)} l :
  StronglySorted R l → StronglySorted R (filter P l).
Proof.
  induction 1 as [|x l _ IH Hx]; [constructor|]. rewrite filter_cons.
  case_decide; [|done]. constructor; [done|].
  rewrite Forall_forall in Hx |- *. intros y [_ Hy]%list_elem_of_filter. by apply Hx.
Qed.

(** [<] on code points is (vacuously) antisymmetric, so a list sorted by
    [<] is determined by its elements. *)
#[export] Instance N_lt_antisymm : AntiSymm (=) (<)%N.
Proof. intros x y ??. lia. Qed.

(** Sorted by [≤] without duplicates is sorted by [<]. *)
Lemma StronglySorted_le_lt_N (l : list N) :
  StronglySorted (≤)%N l → NoDup l → StronglySorted (<)%N l.
Proof.
  induction 1 as [|x l _ IH Hx]; intros Hnd; constructor.
  - apply IH. by apply NoDup_cons in Hnd as [_ ?].
  - apply NoDup_cons in Hnd as [Hnx _]. rewrite Forall_forall in Hx |- *.
    intros y Hy. specialize (Hx y Hy). assert (x ≠ y) by set_solver. lia.
Qed.

(** In a list without duplicates, a prefix that reaches [y] contains every
    element before [y]. *)
Lemma prefix_earlier {A} (P W1 W2 W3 : list A) x y :
  P `prefix_of` W1 ++ x :: W2 ++ y :: W3 → NoDup (W1 ++ x :: W2 ++ y :: W3) →
  y ∈ P → x ∈ P.
Proof.
  intros [Q HQ] Hnd Hy.
  destruct (decide (length P ≤ length W1)) as [Hle|Hlt].
  - exfalso. assert (P = take (length P) W1) as HP.
    { rewrite <- (take_app_le W1 (x :: W2 ++ y :: W3) (length P)) by done.
      by rewrite HQ, take_app_length. }
    assert (y ∈ W1) as HyW1.
    { rewrite <- (take_drop (length P) W1). apply elem_of_app. left. by rewrite <- HP. }
    apply NoDup_app in Hnd as (_ & Hdisj & _). apply (Hdisj y HyW1). set_solver.
  - apply (list_elem_of_lookup_2 _ (length W1)).
    rewrite <- (lookup_app_l P Q) by lia. rewrite <- HQ, lookup_app_r by lia.
    by rewrite Nat.sub_diag.
Qed.

(** A left fold that appends a block per element is a [concat] of the
    blocks: the shape of Python's nested [for ... : xs.append(...)] loops. *)
Lemma foldl_app_concat {A B} (g : A → list B) (l : list A) (acc : list B) :
  foldl (λ acc x, acc ++ g x) acc l = acc ++ concat (g <$> l).
Proof.
  revert acc. induction l as [|x l IH]; intros acc; cbn.
  - by rewrite app_nil_r.
  - by rewrite IH, app_assoc.
Qed.

(** Replacing one element of a list changes a sum by the difference. *)
Lemma sum_list_fmap_insert {A} (f : A → nat) (l : list A) i x y :
  l !! i = Some x → sum_list (f <$> <[i := y]> l) + f x = sum_list (f <$> l) + f y.
Proof.
  revert i. induction l as [|z l IH]; intros [|i] Hi; simplify_eq/=; [lia|].
  specialize (IH i Hi). lia.
Qed.

(** ** Tactics *)

(** [case_contra] closes a goal whose case split is consistent by
    computation, and an inconsistent one by set reasoning. *)
Ltac case_contra := first [done | exfalso; set_solver | set_solver].

(** [bbfs_simp] rewrites with the development's equations and the list
    lemmas of stdpp, then tries to close arithmetic goals. *)
Ltac bbfs_simp :=
  repeat (cbn [fmap list_fmap omap list_omap app concat foldl] in *;
          autorewrite with bbfs in *);
  try lia.

(** [by_decide] proves a decidable proposition about concrete data by
    evaluating its decision procedure. *)
Ltac by_decide :=
  match goal with |- ?P => apply (bool_decide_eq_true_1 P); vm_compute; reflexivity end.
