(* ===== verification/PyStr.v ===== *)
(** * Python strings, the Unicode database, [str.strip], [int()] and [str()]

    A Python [str] is a sequence of Unicode code points; it is modelled as
    [pystr := list N].  The character predicates that [main.py] calls
    ([str.isdigit], [str.isspace] through [strip], and the decimal value that
    [int()] reads) come from the Unicode character database.  They are the
    interface [PyUnicode]: its laws are the facts of the database that the
    program's correctness depends on.  The instance [ucd] implements it with
    the exact Latin-1 rows, every white-space character of Python, and a few
    non-Latin decimal blocks and superscript digits. *)

From S2P Require Import Prelude.
From Stdlib Require Import String Ascii DecimalNat.

Abbreviation pystr := (list N).

(** ** String literals

    Report texts are written as Rocq string literals, whose bytes are the
    UTF-8 encoding of the source text; [u8] decodes them to code points. *)

Fixpoint u8_go (s : string) (need : nat) (acc : N) : pystr :=
  match s with
  | EmptyString => []
  | String a s' =>
      let b := N_of_ascii a in
      match need with
      | O =>
          if (b <? 128)%N then b :: u8_go s' 0 0
          else if (b <? 224)%N then u8_go s' 1 (b - 192)
          else if (b <? 240)%N then u8_go s' 2 (b - 224)
          else u8_go s' 3 (b - 240)
      | S O => (acc * 64 + (b - 128))%N :: u8_go s' 0 0
      | S k => u8_go s' k (acc * 64 + (b - 128))%N
      end
  end.

Definition u8 (s : string) : pystr := u8_go s 0 0.
Arguments u8 s%_string_scope.

(** The newline character, which Rocq literals cannot escape. *)
Definition nl : pystr := [10%N].

(** ** The Unicode character database *)

Class PyUnicode := {
  (** [unicodedata.decimal]: the value of a character of category Nd. *)
  uc_decimal : N → option nat;
  (** [str.isdigit] on a one-character string (Numeric_Type Digit or Decimal). *)
  uc_isdigit : N → bool;
  (** [str.isspace] on a one-character string. *)
  uc_isspace : N → bool;
  uc_decimal_lt c v : uc_decimal c = Some v → v < 10;
  uc_decimal_isdigit c v : uc_decimal c = Some v → uc_isdigit c = true;
  uc_space_not_digit c : uc_isspace c = true → uc_isdigit c = false;
  uc_decimal_ascii c : (c < 128)%N →
    uc_decimal c = if decide (48 ≤ c ≤ 57)%N then Some (N.to_nat (c - 48)) else None;
  uc_isdigit_ascii c : (c < 128)%N → uc_isdigit c = bool_decide (48 ≤ c ≤ 57)%N;
  uc_isspace_ascii c : (c < 128)%N → uc_isspace c = bool_decide (9 ≤ c ≤ 13 ∨ 28 ≤ c ≤ 32)%N
}.

(** *** The instance used for concrete runs *)

(** A block of ten decimal digits starting at code point [z]. *)
Definition nd_block (z c : N) : option nat :=
  if decide (z ≤ c < z + 10)%N then Some (N.to_nat (c - z)) else None.

(** The code points of the digit zero of the decimal blocks: ASCII,
    Arabic-Indic, Extended Arabic-Indic, Devanagari, Fullwidth. *)
Definition ucd_nd_zeros : list N := [0x30; 0x660; 0x6F0; 0x966; 0xFF10]%N.

Definition ucd_decimal (c : N) : option nat :=
  foldr (λ z acc, from_option Some acc (nd_block z c)) None ucd_nd_zeros.

(** Superscript and subscript digits are digits without a decimal value. *)
Definition ucd_isdigit (c : N) : bool :=
  bool_decide (is_Some (ucd_decimal c)) ||
  bool_decide (c = 0xB2 ∨ c = 0xB3 ∨ c = 0xB9 ∨ c = 0x2070
               ∨ 0x2074 ≤ c ≤ 0x2079 ∨ 0x2080 ≤ c ≤ 0x2089)%N.

(** Every character for which CPython's [Py_UNICODE_ISSPACE] holds. *)
Definition ucd_isspace (c : N) : bool :=
  bool_decide (9 ≤ c ≤ 13 ∨ 28 ≤ c ≤ 32 ∨ c = 0x85 ∨ c = 0xA0 ∨ c = 0x1680
               ∨ 0x2000 ≤ c ≤ 0x200A ∨ c = 0x2028 ∨ c = 0x2029 ∨ c = 0x202F
               ∨ c = 0x205F ∨ c = 0x3000)%N.

Lemma nd_blocks_Some zs c v :
  foldr (λ z acc, from_option Some acc (nd_block z c)) None zs = Some v →
  ∃ z, z ∈ zs ∧ (z ≤ c < z + 10)%N ∧ v = N.to_nat (c - z).
Proof.
  induction zs as [|z zs IH]; cbn; [done|].
  destruct (nd_block z c) as [w|] eqn:E; cbn.
  - intros [= <-]. unfold nd_block in E. case_decide; simplify_eq.
    exists z. split; [set_solver|]. split; [lia|done].
  - intros (z' & ? & ?)%IH. exists z'. split; [set_solver|done].
Qed.

Lemma nd_blocks_None zs c :
  (∀ z, z ∈ zs → ¬ (z ≤ c < z + 10)%N) →
  foldr (λ z acc, from_option Some acc (nd_block z c)) None zs = None.
Proof.
  induction zs as [|z zs IH]; cbn; [done|]. intros Hz.
  assert (nd_block z c = None) as ->.
  { unfold nd_block. case_decide; [|done]. exfalso. apply (Hz z); [set_solver|done]. }
  cbn. apply IH. intros z' ?. apply Hz. set_solver.
Qed.

Lemma ucd_decimal_cases c v :
  ucd_decimal c = Some v →
  ∃ z, (z = 0x30 ∨ z = 0x660 ∨ z = 0x6F0 ∨ z = 0x966 ∨ z = 0xFF10)%N ∧
       (z ≤ c < z + 10)%N ∧ v = N.to_nat (c - z).
Proof.
  intros (z & Hz & ?)%nd_blocks_Some. exists z. split; [|done].
  unfold ucd_nd_zeros in Hz. set_solver.
Qed.

Lemma ucd_decimal_none c :
  ¬ (0x30 ≤ c < 0x3A ∨ 0x660 ≤ c < 0x66A ∨ 0x6F0 ≤ c < 0x6FA ∨ 0x966 ≤ c < 0x970
     ∨ 0xFF10 ≤ c < 0xFF1A)%N → ucd_decimal c = None.
Proof.
  intros Hc. apply nd_blocks_None. intros z Hz.
  unfold ucd_nd_zeros in Hz. repeat (rewrite elem_of_cons in Hz); rewrite elem_of_nil in Hz.
  lia.
Qed.

Lemma ucd_decimal_ascii_digit c :
  (48 ≤ c ≤ 57)%N → ucd_decimal c = Some (N.to_nat (c - 48)).
Proof.
  intros Hc. unfold ucd_decimal, nd_block; cbn.
  destruct (decide ((48 ≤ c < 48 + 10)%N)); [done|lia].
Qed.

#[export] Program Instance ucd : PyUnicode := {|
  uc_decimal := ucd_decimal; uc_isdigit := ucd_isdigit; uc_isspace := ucd_isspace |}.
Next Obligation.
  intros c v Hv. destruct (ucd_decimal_cases c v Hv) as (z & _ & ? & ->). lia.
Qed.
Next Obligation.
  intros c v Hv. unfold ucd_isdigit. rewrite Hv. done.
Qed.
Next Obligation.
  intros c. unfold ucd_isspace, ucd_isdigit. intros Hs%bool_decide_eq_true_1.
  rewrite ucd_decimal_none by lia. cbn. apply bool_decide_eq_false_2. lia.
Qed.
Next Obligation.
  intros c Hc. case_decide.
  - by apply ucd_decimal_ascii_digit.
  - apply ucd_decimal_none. lia.
Qed.
Next Obligation.
  intros c Hc. unfold ucd_isdigit. destruct (decide ((48 ≤ c ≤ 57)%N)).
  - rewrite ucd_decimal_ascii_digit by done.
    rewrite (bool_decide_eq_true_2 (48 ≤ c ≤ 57)%N) by done.
    by rewrite bool_decide_eq_true_2 by eauto.
  - rewrite ucd_decimal_none by lia.
    repeat (rewrite bool_decide_eq_false_2; [|first [by intros [? ?] | lia]]). done.
Qed.
Next Obligation.
  intros c Hc. unfold ucd_isspace. apply bool_decide_ext. lia.
Qed.

(** ** Character predicates and [str.strip] *)

Section Str.
Context `{PyUnicode}.

(** [s.isdigit()]: non-empty and every character a digit. *)
Definition py_isdigit (s : pystr) : bool :=
  bool_decide (s ≠ []) && forallb uc_isdigit s.

Fixpoint py_lstrip (s : pystr) : pystr :=
  match s with
  | [] => []
  | c :: s' => if uc_isspace c then py_lstrip s' else s
  end.

Definition py_rstrip (s : pystr) : pystr := reverse (py_lstrip (reverse s)).

(** [s.strip()] with no argument removes white space at both ends. *)
Definition py_strip (s : pystr) : pystr := py_rstrip (py_lstrip s).

(** A string is stripped when it has no white space at either end. *)
Definition stripped (s : pystr) : Prop :=
  (∀ c s', s = c :: s' → uc_isspace c = false) ∧
  (∀ c s', s = s' ++ [c] → uc_isspace c = false).

Lemma py_isdigit_single c : py_isdigit [c] = uc_isdigit c.
Proof. unfold py_isdigit. cbn. rewrite andb_true_r. done. Qed.

Lemma py_lstrip_head s c s' : py_lstrip s = c :: s' → uc_isspace c = false.
Proof.
  induction s as [|d s IH]; cbn; [done|].
  destruct (uc_isspace d) eqn:E; [done|]. by intros [= -> ->].
Qed.

Lemma py_lstrip_suffix s : ∃ p, s = p ++ py_lstrip s ∧ Forall (λ c, uc_isspace c = true) p.
Proof.
  induction s as [|d s (p & Hp & Hf)]; cbn; [by exists []|].
  destruct (uc_isspace d) eqn:E.
  - exists (d :: p). split; [cbn; by rewrite <- Hp | by constructor].
  - by exists [].
Qed.

Lemma py_lstrip_app_r s t :
  (∃ c, c ∈ s ∧ uc_isspace c = false) → py_lstrip (s ++ t) = py_lstrip s ++ t.
Proof.
  induction s as [|d s IH]; cbn; intros (c & Hc & Hs); [by apply elem_of_nil in Hc|].
  destruct (uc_isspace d) eqn:E; [|done].
  apply IH. apply elem_of_cons in Hc as [->|Hc]; [congruence|eauto].
Qed.

Lemma py_lstrip_idem s : py_lstrip (py_lstrip s) = py_lstrip s.
Proof.
  destruct (py_lstrip s) as [|c s'] eqn:E; [done|].
  cbn. by rewrite (py_lstrip_head s c s' E).
Qed.

Lemma py_rstrip_last s c s' : py_rstrip s = s' ++ [c] → uc_isspace c = false.
Proof.
  unfold py_rstrip. intros Hs.
  apply (f_equal reverse) in Hs. rewrite reverse_involutive, reverse_snoc in Hs.
  by apply py_lstrip_head in Hs.
Qed.

Lemma py_rstrip_nil s : py_rstrip s = [] ↔ Forall (λ c, uc_isspace c = true) s.
Proof.
  unfold py_rstrip. destruct (py_lstrip_suffix (reverse s)) as (p & Hp & Hf).
  split.
  - intros Hr. apply (f_equal reverse) in Hr. rewrite reverse_involutive in Hr.
    rewrite <- (reverse_involutive s), Hp, Hr, app_nil_r.
    by apply Forall_reverse.
  - intros Hall. destruct (py_lstrip (reverse s)) as [|c t] eqn:E; [done|].
    exfalso. apply py_lstrip_head in E.
    assert (c ∈ reverse s) as Hc by (rewrite Hp; set_solver).
    rewrite elem_of_reverse in Hc.
    rewrite Forall_forall in Hall. specialize (Hall c Hc). congruence.
Qed.
End Str.

(** ** [int(str)] and [str(int)] *)

Section IntStr.
Context `{PyUnicode}.

Lemma py_lstrip_nospace s : Forall (λ c, uc_isspace c = false) s → py_lstrip s = s.
Proof. destruct s as [|c s]; [done|]. intros [Hc _]%Forall_cons. cbn. by rewrite Hc. Qed.

(** Stripping a string with no white space changes nothing. *)
Lemma py_strip_nospace s : Forall (λ c, uc_isspace c = false) s → py_strip s = s.
Proof.
  intros Hs. unfold py_strip, py_rstrip. rewrite (py_lstrip_nospace s Hs).
  rewrite py_lstrip_nospace by (by apply Forall_reverse).
  apply reverse_involutive.
Qed.

(** The digit string after the optional sign: decimal characters, a single
    underscore allowed between two of them.  [None] is [ValueError]. *)
Fixpoint parse_digits (s : pystr) (acc : Z) : option Z :=
  match s with
  | [] => Some acc
  | c :: s' =>
      match uc_decimal c with
      | Some v => parse_digits s' (acc * 10 + Z.of_nat v)
      | None =>
          if decide (c = 95%N) then
            match s' with
            | d :: s'' =>
                match uc_decimal d with
                | Some v => parse_digits s'' (acc * 10 + Z.of_nat v)
                | None => None
                end
            | [] => None
            end
          else None
      end
  end.

(** The first character of the digit string must be a decimal digit. *)
Definition parse_unsigned (s : pystr) : option Z :=
  match s with
  | c :: s' =>
      match uc_decimal c with
      | Some v => parse_digits s' (Z.of_nat v)
      | None => None
      end
  | [] => None
  end.

(** [int(s)] for a [str] [s] in base 10 (CPython's
    [PyLong_FromUnicodeObject]): white space around the number, an optional
    sign [-] or [+], then the digits. *)
Definition py_int (s : pystr) : option Z :=
  match py_strip s with
  | c :: t =>
      if decide (c = 45%N) then Z.opp <$> parse_unsigned t
      else if decide (c = 43%N) then parse_unsigned t
      else parse_unsigned (c :: t)
  | [] => None
  end.

(** The ASCII character of the decimal digit [k]. *)
Definition digit_char (k : nat) : N := (48 + N.of_nat k)%N.

Fixpoint uint_chars (d : Decimal.uint) : pystr :=
  match d with
  | Decimal.Nil => []
  | Decimal.D0 d => digit_char 0 :: uint_chars d
  | Decimal.D1 d => digit_char 1 :: uint_chars d
  | Decimal.D2 d => digit_char 2 :: uint_chars d
  | Decimal.D3 d => digit_char 3 :: uint_chars d
  | Decimal.D4 d => digit_char 4 :: uint_chars d
  | Decimal.D5 d => digit_char 5 :: uint_chars d
  | Decimal.D6 d => digit_char 6 :: uint_chars d
  | Decimal.D7 d => digit_char 7 :: uint_chars d
  | Decimal.D8 d => digit_char 8 :: uint_chars d
  | Decimal.D9 d => digit_char 9 :: uint_chars d
  end.

(** [str(n)] for a natural number: its decimal digits, no leading zero. *)
Definition py_str_nat (n : nat) : pystr := uint_chars (Nat.to_uint n).

(** [str(z)] for any integer. *)
Definition py_str_Z (z : Z) : pystr :=
  if (z <? 0)%Z then 45%N :: py_str_nat (Z.to_nat (- z)) else py_str_nat (Z.to_nat z).

Lemma uc_decimal_digit_char k : k < 10 → uc_decimal (digit_char k) = Some k.
Proof.
  intros Hk. unfold digit_char. rewrite uc_decimal_ascii by lia.
  rewrite decide_True by lia. f_equal. lia.
Qed.

Lemma uc_isspace_digit_char k : k < 10 → uc_isspace (digit_char k) = false.
Proof.
  intros Hk. unfold digit_char. rewrite uc_isspace_ascii by lia.
  apply bool_decide_eq_false_2. lia.
Qed.

Lemma uint_chars_digits d : Forall (λ c, ∃ k, k < 10 ∧ c = digit_char k) (uint_chars d).
Proof.
  induction d; cbn; [by apply Forall_nil|..].
  all: apply Forall_cons; split; try done.
  all: eexists; split; [|reflexivity]; lia.
Qed.

Lemma uint_chars_nospace d : Forall (λ c, uc_isspace c = false) (uint_chars d).
Proof.
  eapply Forall_impl; [apply uint_chars_digits|].
  intros c (k & Hk & ->). by apply uc_isspace_digit_char.
Qed.

Lemma parse_digits_uint d acc :
  parse_digits (uint_chars d) (Z.of_nat acc) = Some (Z.of_nat (Nat.of_uint_acc d acc)).
Proof.
  revert acc. induction d; intros acc; [done|..];
    cbn [uint_chars parse_digits Nat.of_uint_acc];
    rewrite uc_decimal_digit_char by lia;
    match goal with
    | |- parse_digits _ ?a = Some (Z.of_nat (Nat.of_uint_acc _ ?b)) =>
        replace a with (Z.of_nat b) by (rewrite ?Nat.tail_mul_spec; lia)
    end; apply IHd.
Qed.

Lemma to_uint_not_nil n : Nat.to_uint n ≠ Decimal.Nil.
Proof.
  intros Hn. pose proof (DecimalNat.Unsigned.of_to n) as Ho.
  rewrite Hn in Ho. cbn in Ho. subst n. discriminate.
Qed.

Lemma parse_unsigned_str_nat n : parse_unsigned (py_str_nat n) = Some (Z.of_nat n).
Proof.
  unfold py_str_nat. pose proof (to_uint_not_nil n) as Hnn.
  pose proof (parse_digits_uint (Nat.to_uint n) 0) as Hp.
  change (Nat.of_uint_acc (Nat.to_uint n) 0) with (Nat.of_uint (Nat.to_uint n)) in Hp.
  rewrite DecimalNat.Unsigned.of_to in Hp.
  destruct (Nat.to_uint n); [done|..];
    cbn [uint_chars parse_digits parse_unsigned] in Hp |- *;
    rewrite uc_decimal_digit_char in Hp |- * by lia;
    exact Hp.
Qed.

Lemma py_str_nat_head n : ∃ k t, k < 10 ∧ py_str_nat n = digit_char k :: t.
Proof.
  unfold py_str_nat. pose proof (uint_chars_digits (Nat.to_uint n)) as Hd.
  pose proof (to_uint_not_nil n) as Hnn.
  destruct (uint_chars (Nat.to_uint n)) as [|c t] eqn:E.
  - destruct (Nat.to_uint n); done.
  - apply Forall_cons in Hd as [(k & Hk & ->) _]. eauto.
Qed.

Lemma py_str_nat_nospace n : Forall (λ c, uc_isspace c = false) (py_str_nat n).
Proof. apply uint_chars_nospace. Qed.
End IntStr.

Section Theorems.
Context `{PyUnicode}.

Lemma py_rstrip_prefix s :
  ∃ q, s = py_rstrip s ++ q ∧ Forall (λ c, uc_isspace c = true) q.
Proof.
  destruct (py_lstrip_suffix (reverse s)) as (p & Hp & Hf).
  exists (reverse p). split; [|by apply Forall_reverse].
  unfold py_rstrip. rewrite <- reverse_app, <- Hp. by rewrite reverse_involutive.
Qed.

(** [s.strip()] is the middle of [s] between a blank prefix and a blank
    suffix, and it begins and ends with a non-blank character: this
    determines it uniquely. *)
Theorem py_strip_spec s :
  ∃ p q, s = p ++ py_strip s ++ q ∧
         Forall (λ c, uc_isspace c = true) p ∧ Forall (λ c, uc_isspace c = true) q ∧
         stripped (py_strip s).
Proof.
  destruct (py_lstrip_suffix s) as (p & Hp & Hfp).
  destruct (py_rstrip_prefix (py_lstrip s)) as (q & Hq & Hfq).
  exists p, q. unfold py_strip. split_and!; [by rewrite <- Hq|done|done|split].
  - intros c s' Hs. apply (py_lstrip_head s c (s' ++ q)). by rewrite Hq, Hs.
  - intros c s' Hs. by apply (py_rstrip_last (py_lstrip s) c s').
Qed.

(** [int()] of a one-character string is the decimal value of the
    character, and raises [ValueError] ([None]) for any other character:
    this is the test [analisis_digit] applies to every character. *)
Theorem py_int_single c : py_int [c] = Z.of_nat <$> uc_decimal c.
Proof.
  unfold py_int, py_strip, py_rstrip. cbn [py_lstrip].
  destruct (uc_isspace c) eqn:Hs.
  - cbn. destruct (uc_decimal c) as [v|] eqn:Hd; [|done].
    apply uc_decimal_isdigit in Hd. by rewrite uc_space_not_digit in Hd.
  - cbn. rewrite Hs. cbn.
    repeat case_decide; subst;
      [rewrite uc_decimal_ascii by lia; rewrite decide_False by lia; done..|].
    cbn. by destruct (uc_decimal c).
Qed.

(** Round trip: [int(str(z)) == z] for every integer [z]. *)
Theorem py_int_str_Z z : py_int (py_str_Z z) = Some z.
Proof.
  unfold py_str_Z, py_int. destruct (Z.ltb_spec z 0) as [Hz|Hz].
  - rewrite py_strip_nospace.
    + rewrite decide_True by done. rewrite parse_unsigned_str_nat. cbn. f_equal. lia.
    + constructor; [|apply py_str_nat_nospace].
      rewrite uc_isspace_ascii by lia. apply bool_decide_eq_false_2. lia.
  - rewrite py_strip_nospace by apply py_str_nat_nospace.
    destruct (py_str_nat_head (Z.to_nat z)) as (k & t & Hk & Ht).
    rewrite Ht. rewrite !decide_False by (unfold digit_char; lia).
    rewrite <- Ht, parse_unsigned_str_nat.
    f_equal. lia.
Qed.
End Theorems.
