(* ===== verification/Loader.v ===== *)
(** * The history loader: [baca_history_dari_file] (main.py lines 32-43)

    [open(nama_file, 'r')] reads a text file; [FileNotFoundError] and every
    other exception (permissions, undecodable bytes, ...) are caught and give
    [[]].  The file system is a map from paths to files, a file is either
    readable, with its decoded text, or not ([fs_entry]).  Text mode
    translates ["\r\n"] and ["\r"] to ["\n"] ([translate_newlines]),
    [readlines()] splits after every ["\n"] ([py_readlines]), and the list
    comprehension keeps the stripped lines that are not empty. *)

From S2P Require Import Prelude PyStr.

(** What [open(path, 'r')] followed by a read finds at a path. *)
Inductive fs_entry :=
  | Readable (text : pystr)
  | Unreadable.

(** The outcome of opening and reading, with its two exceptions. *)
Inductive read_outcome :=
  | FileNotFound
  | ReadError
  | Contents (text : pystr).

Section Loader.
Context `{PyUnicode}.

Definition open_read (fs : gmap pystr fs_entry) (path : pystr) : read_outcome :=
  match fs !! path with
  | None => FileNotFound
  | Some Unreadable => ReadError
  | Some (Readable text) => Contents text
  end.

(** Universal newlines: ["\r\n"] and a lone ["\r"] read as ["\n"]. *)
Fixpoint translate_newlines (s : pystr) : pystr :=
  match s with
  | [] => []
  | c :: r =>
      if decide (c = 13%N) then
        match r with
        | d :: r' => if decide (d = 10%N) then 10%N :: translate_newlines r'
                     else 10%N :: translate_newlines r
        | [] => [10%N]
        end
      else c :: translate_newlines r
  end.

(** [readlines()]: each line keeps its ["\n"]; a last line without one is
    kept when it is not empty. *)
Fixpoint readlines_go (cur : pystr) (s : pystr) : list pystr :=
  match s with
  | [] => match cur with [] => [] | _ => [cur] end
  | c :: r =>
      if decide (c = 10%N) then (cur ++ [c]) :: readlines_go [] r
      else readlines_go (cur ++ [c]) r
  end.

Definition py_readlines (text : pystr) : list pystr := readlines_go [] (translate_newlines text).

(** [[line.strip() for line in lines if line.strip()]] followed by
    [[str(h) for h in lines]], and [str] of a [str] is itself. *)
Definition clean_lines (lines : list pystr) : list pystr :=
  (λ h, h) <$> (py_strip <$> filter (λ line, py_strip line ≠ []) lines).

Definition baca_history_dari_file (fs : gmap pystr fs_entry) (nama_file : pystr) : list pystr :=
  match open_read fs nama_file with
  | Contents text => clean_lines (py_readlines text)
  | FileNotFound => []
  | ReadError => []
  end.

(** ** Lemmas *)

Lemma readlines_go_line cur t rest :
  10%N ∉ t → readlines_go cur (t ++ 10%N :: rest) = (cur ++ t ++ [10%N]) :: readlines_go [] rest.
Proof.
  revert cur. induction t as [|c t IH]; intros cur Ht; cbn.
  - by rewrite decide_True.
  - rewrite decide_False by set_solver. rewrite IH by set_solver. by rewrite <- app_assoc.
Qed.

Lemma translate_newlines_id s : 13%N ∉ s → translate_newlines s = s.
Proof.
  induction s as [|c s IH]; intros Hs; cbn; [done|].
  rewrite decide_False by set_solver. rewrite IH by set_solver. done.
Qed.

Lemma translate_newlines_crlf t rest :
  13%N ∉ t → translate_newlines (t ++ 13%N :: 10%N :: rest) = t ++ 10%N :: translate_newlines rest.
Proof.
  induction t as [|c t IH]; intros Ht; cbn.
  - by rewrite !decide_True.
  - rewrite decide_False by set_solver. rewrite IH by set_solver. done.
Qed.

Lemma uc_isspace_newline : uc_isspace 10%N = true.
Proof. rewrite uc_isspace_ascii by lia. by apply bool_decide_eq_true_2; lia. Qed.

(** A stripped non-empty line followed by its newline strips back to itself. *)
Lemma py_strip_line t : t ≠ [] → stripped t → py_strip (t ++ [10%N]) = t.
Proof.
  intros Hne [Hhd Htl]. unfold py_strip, py_rstrip.
  destruct t as [|c t']; [done|].
  cbn [py_lstrip app]. rewrite (Hhd c t' eq_refl). rewrite app_comm_cons.
  rewrite reverse_snoc. cbn [py_lstrip]. rewrite uc_isspace_newline.
  destruct (reverse (c :: t')) as [|c' r] eqn:Hr.
  - apply (f_equal length) in Hr. rewrite length_reverse in Hr. done.
  - cbn [py_lstrip]. rewrite (Htl c' (reverse r)).
    + rewrite <- Hr. apply reverse_involutive.
    + rewrite <- (reverse_involutive (c :: t')), Hr. by rewrite reverse_cons.
Qed.
End Loader.

Section LoaderTheory.
Context `{PyUnicode}.

(** The text of a file that holds [toks], one per line, each line ended by
    [eol]. *)
Definition write_lines (toks : list pystr) (eol : pystr) : pystr :=
  concat ((λ t, t ++ eol) <$> toks).

(** What a token must be to survive a write and a load: a non-empty
    stripped string without line breaks. *)
Definition line_token (t : pystr) : Prop :=
  t ≠ [] ∧ stripped t ∧ 10%N ∉ t ∧ 13%N ∉ t.

Lemma readlines_write toks :
  Forall (λ t, 10%N ∉ t) toks →
  readlines_go [] (write_lines toks [10%N]) = (λ t, t ++ [10%N]) <$> toks.
Proof.
  unfold write_lines. induction 1 as [|t toks Ht _ IH]; [done|].
  rewrite !fmap_cons. cbn [concat]. rewrite <- app_assoc. cbn [app].
  rewrite readlines_go_line by done. by rewrite IH.
Qed.

Lemma translate_newlines_lf t rest :
  13%N ∉ t → translate_newlines (t ++ 10%N :: rest) = t ++ 10%N :: translate_newlines rest.
Proof.
  induction t as [|c t IH]; intros Ht; cbn.
  - by rewrite decide_False.
  - rewrite decide_False by set_solver. rewrite IH by set_solver. done.
Qed.

Lemma translate_write toks eol :
  eol = [10%N] ∨ eol = [13%N; 10%N] → Forall (λ t, 13%N ∉ t) toks →
  translate_newlines (write_lines toks eol) = write_lines toks [10%N].
Proof.
  intros Heol. unfold write_lines. induction 1 as [|t toks Ht _ IH]; [done|].
  rewrite !fmap_cons. cbn [concat]. rewrite <- !app_assoc.
  destruct Heol as [->| ->]; cbn [app];
    [rewrite translate_newlines_lf by done|rewrite translate_newlines_crlf by done];
    by rewrite IH.
Qed.

Lemma clean_write toks :
  Forall line_token toks → clean_lines ((λ t, t ++ [10%N]) <$> toks) = toks.
Proof.
  unfold clean_lines. induction 1 as [|t toks (Hne & Hs & _) _ IH]; [done|].
  rewrite fmap_cons, filter_cons_True by (by rewrite py_strip_line).
  cbn. by rewrite py_strip_line, IH.
Qed.

(** C25: Every token the loader returns is non-empty and has no white space
    at either end. *)
Theorem baca_tokens_stripped fs (nama_file : pystr) :
  Forall (λ t, t ≠ [] ∧ stripped t) (baca_history_dari_file fs nama_file).
Proof.
  unfold baca_history_dari_file. destruct (open_read fs nama_file); try constructor.
  unfold clean_lines. rewrite list_fmap_id. apply Forall_fmap, Forall_forall.
  intros line [Hne _]%list_elem_of_filter. split; [done|].
  destruct (py_strip_spec line) as (_ & _ & _ & _ & _ & Hs). done.
Qed.

Lemma clean_lines_nil lines :
  clean_lines lines = [] ↔ Forall (λ line, py_strip line = []) lines.
Proof.
  unfold clean_lines. rewrite list_fmap_id.
  induction lines as [|line lines IH]; [split; by constructor|].
  rewrite filter_cons, Forall_cons. case_decide as Hl; cbn; [naive_solver|].
  rewrite IH. split; [|naive_solver]. intros ?. split; [|done].
  destruct (py_strip line); [done|]. exfalso. naive_solver.
Qed.

(** C24: An empty history comes from a missing file, an unreadable file or a
    file whose lines are all blank: the caller cannot tell them apart. *)
Theorem baca_empty_iff fs (nama_file : pystr) :
  baca_history_dari_file fs nama_file = [] ↔
  match open_read fs nama_file with
  | Contents text => Forall (λ line, py_strip line = []) (py_readlines text)
  | _ => True
  end.
Proof.
  unfold baca_history_dari_file. destruct (open_read fs nama_file); [done|done|].
  apply clean_lines_nil.
Qed.

(** The text of a file written with one token per line reads back as
    those tokens. *)
Lemma clean_readlines_write toks eol :
  Forall line_token toks → eol = [10%N] ∨ eol = [13%N; 10%N] →
  clean_lines (py_readlines (write_lines toks eol)) = toks.
Proof.
  intros Htoks Heol. unfold py_readlines.
  rewrite translate_write by (done || (eapply Forall_impl; [exact Htoks|]; by intros t (_ & _ & _ & ?))).
  rewrite readlines_write by (eapply Forall_impl; [exact Htoks|]; by intros t (_ & _ & ? & _)).
  by apply clean_write.
Qed.

(** C12: Round trip: a file written with one token per line, with Unix or
    Windows line ends, loads back as the same tokens in the same order. *)
Theorem baca_roundtrip fs (nama_file : pystr) toks eol :
  Forall line_token toks →
  eol = [10%N] ∨ eol = [13%N; 10%N] →
  fs !! nama_file = Some (Readable (write_lines toks eol)) →
  baca_history_dari_file fs nama_file = toks.
Proof.
  intros Htoks Heol Hfile.
  unfold baca_history_dari_file, open_read. rewrite Hfile.
  by apply clean_readlines_write.
Qed.
End LoaderTheory.

(** ** A concrete round trip, with the Unicode table [ucd] *)


Lemma baca_roundtrip_witness :
  baca_history_dari_file {[ [104%N] := Readable (write_lines [[55%N]; [52%N; 50%N]] [13%N; 10%N]) ]}
    [104%N] = [[55%N]; [52%N; 50%N]].
Proof.
  apply (baca_roundtrip _ _ _ [13%N; 10%N]).
  - repeat constructor; try discriminate; try (intros c s' Hs;
      repeat (destruct s' as [|? s']; simplify_eq/=); reflexivity); set_solver.
  - by right.
  - apply lookup_insert_eq.
Defined.
