(* ===== verification/Mirror.v ===== *)
(** * The mirror map: [mirror_number] (main.py lines 24-28)

    [mirror_number(n)] builds the dictionary [{0: 5, 1: 6, ..., 9: 4}],
    converts its argument with [int(n)] (the argument is an [int] or a
    [str]) and returns [mirror_map.get(int(n), int(n))].  The dictionary is a
    [gmap Z Z]; the argument is a Python value [pyval]; [int()] of a [str]
    may raise [ValueError], which is [None]. *)

From S2P Require Import Prelude PyStr.

(** The two kinds of values the function is called with. *)
Inductive pyval :=
  | PyInt (z : Z)
  | PyStr (s : pystr).

Section Mirror.
Context `{PyUnicode}.

(** [int(v)]: the identity on [int], [py_int] on [str]. *)
Definition py_int_val (v : pyval) : option Z :=
  match v with
  | PyInt z => Some z
  | PyStr s => py_int s
  end.

Definition mirror_map : gmap Z Z :=
  list_to_map [(0, 5); (1, 6); (2, 7); (3, 8); (4, 9);
               (5, 0); (6, 1); (7, 2); (8, 3); (9, 4)]%Z.

(** [mirror_map.get(k, k)]: the dictionary lookup with its default. *)
Definition mirror_get (k : Z) : Z := default k (mirror_map !! k).

Definition mirror_number (n : pyval) : option Z := mirror_get <$> py_int_val n.

Lemma mirror_get_digit d : (0 ≤ d ≤ 9)%Z → mirror_get d = ((d + 5) mod 10)%Z.
Proof.
  intros Hd. assert (d = 0 ∨ d = 1 ∨ d = 2 ∨ d = 3 ∨ d = 4 ∨ d = 5 ∨ d = 6 ∨ d = 7
                     ∨ d = 8 ∨ d = 9)%Z as Hc by lia.
  destruct_or! Hc; subst d; reflexivity.
Qed.

Lemma mirror_map_outside k : (k < 0 ∨ 9 < k)%Z → mirror_map !! k = None.
Proof.
  intros Hk. apply not_elem_of_list_to_map_1. cbn.
  repeat rewrite elem_of_cons. rewrite elem_of_nil. lia.
Qed.

(** ** Behaviour on each branch *)

(** C21: On a digit the map adds 5 modulo 10. *)
Theorem mirror_number_digit d :
  (0 ≤ d ≤ 9)%Z → mirror_number (PyInt d) = Some ((d + 5) mod 10)%Z.
Proof. intros Hd. cbn. f_equal. by apply mirror_get_digit. Qed.

(** C22: Outside [0..9] the [.get] default returns the argument itself. *)
Theorem mirror_number_outside k :
  (k < 0 ∨ 9 < k)%Z → mirror_number (PyInt k) = Some k.
Proof. intros Hk. cbn. unfold mirror_get. by rewrite mirror_map_outside. Qed.

(** A string is converted by [int()] first: [mirror_number(str(z))] is the
    mirror of [z]. *)
Theorem mirror_number_str z : mirror_number (PyStr (py_str_Z z)) = Some (mirror_get z).
Proof. cbn. by rewrite py_int_str_Z. Qed.

(** ** The mirror bijection *)

(** C20: The lookup with default is an involution on every integer. *)
Theorem mirror_get_involutive k : mirror_get (mirror_get k) = k.
Proof.
  destruct (decide (0 ≤ k ≤ 9)%Z) as [Hk|Hk].
  - rewrite (mirror_get_digit k) by done.
    pose proof (Z.mod_pos_bound (k + 5) 10).
    rewrite mirror_get_digit by lia.
    rewrite Z.add_mod_idemp_l by lia.
    replace (k + 5 + 5)%Z with (k + 1 * 10)%Z by lia.
    rewrite Z.mod_add by lia. apply Z.mod_small. lia.
  - unfold mirror_get. rewrite mirror_map_outside by lia. cbn.
    rewrite mirror_map_outside by lia. done.
Qed.

(** No digit is its own mirror, and the mirror of a digit is a digit. *)
Theorem mirror_get_digit_moves d :
  (0 ≤ d ≤ 9)%Z → mirror_get d ≠ d ∧ (0 ≤ mirror_get d ≤ 9)%Z.
Proof.
  intros Hd. rewrite mirror_get_digit by done.
  pose proof (Z.mod_pos_bound (d + 5) 10).
  split; [|lia].
  destruct (decide (d < 5)%Z).
  - rewrite Z.mod_small; lia.
  - replace (d + 5)%Z with ((d - 5) + 1 * 10)%Z by lia.
    rewrite Z.mod_add, Z.mod_small; lia.
Qed.
End Mirror.

(** ** Concrete instances, with the Unicode table [ucd] *)

Lemma mirror_number_digit_witness : (0 ≤ 3 ≤ 9)%Z ∧ mirror_number (PyInt 3) = Some ((3 + 5) mod 10)%Z.
Proof. split; [lia|]. apply mirror_number_digit. lia. Defined.

Lemma mirror_number_outside_witness : mirror_number (PyInt 12) = Some 12%Z.
Proof. apply mirror_number_outside. lia. Defined.
