(* ===== verification/PyCounter.v ===== *)
(** * [collections.Counter]: counting and [most_common]

    A [Counter] is a [dict] from keys to counts; a Python [dict] remembers
    the order in which keys were first inserted, and [most_common] breaks
    ties in that order, so the counter is an association list
    [list (K * nat)] in insertion order, not a [gmap].  The operations are
    the ones [main.py] uses: [c[k] += 1] ([counter_incr]), [Counter(xs)]
    ([counter_of]) and [c.most_common(n)] ([most_common]).  The library is
    not under [src/]: the definitions follow CPython's [collections] module
    and its documented contract: [most_common(n)] is
    [heapq.nlargest(n, items, key=count)], which returns the same list as
    [sorted(items, key=count, reverse=True)[:n]], a stable sort, and [[]] when
    [n <= 0]. *)

From S2P Require Import Prelude.

Section Counter.
Context {K : Type} `{EqDecision K}.
Implicit Types (k : K) (c : list (K * nat)) (l : list K).

(** ** Operations *)

(** [c[k] += 1]: a missing key reads as [0] and is appended at the end. *)
Fixpoint counter_incr k c : list (K * nat) :=
  match c with
  | [] => [(k, 1)]
  | (k', n) :: c' => if decide (k' = k) then (k', S n) :: c' else (k', n) :: counter_incr k c'
  end.

(** [Counter(xs)]: one increment per element, left to right. *)
Definition counter_of l : list (K * nat) := foldl (λ c k, counter_incr k c) [] l.

(** [c[k]]: the count of [k], [0] when absent. *)
Fixpoint counter_get k c : nat :=
  match c with
  | [] => 0
  | (k', n) :: c' => if decide (k' = k) then n else counter_get k c'
  end.

(** Insert [x] before the first item whose count is not larger: [x] comes
    earlier in the input than every item of [c], so among equal counts it
    stays first. *)
Fixpoint insert_desc (x : K * nat) c : list (K * nat) :=
  match c with
  | [] => [x]
  | y :: c' => if decide (y.2 ≤ x.2) then x :: y :: c' else y :: insert_desc x c'
  end.

(** [sorted(items, key=count, reverse=True)]. *)
Fixpoint sort_desc c : list (K * nat) :=
  match c with
  | [] => []
  | x :: c' => insert_desc x (sort_desc c')
  end.

(** [c.most_common(n)]; [Z.to_nat] sends every [n <= 0] to [0]. *)
Definition most_common (n : Z) c : list (K * nat) := take (Z.to_nat n) (sort_desc c).

(** ** Specifications *)

(** The keys in order of first occurrence. *)
Fixpoint first_occ_go (seen : list K) l : list K :=
  match l with
  | [] => []
  | k :: l' => if decide (k ∈ seen) then first_occ_go seen l' else k :: first_occ_go (k :: seen) l'
  end.
Definition first_occ l : list K := first_occ_go [] l.

(** The order of [sorted(..., reverse=True)] on counts. *)
Definition count_ge (x y : K * nat) : Prop := y.2 ≤ x.2.

(** The items of one count, in their order. *)
Definition with_count (n : nat) c : list (K * nat) := filter (λ x, x.2 = n) c.

(** ** Lemmas on the operations *)

Lemma counter_of_snoc l k : counter_of (l ++ [k]) = counter_incr k (counter_of l).
Proof. unfold counter_of. by rewrite foldl_app. Qed.

Lemma first_occ_go_spec seen l k :
  k ∈ first_occ_go seen l ↔ k ∈ l ∧ k ∉ seen.
Proof.
  revert seen. induction l as [|k' l IH]; intros seen; cbn; [set_solver|].
  pose proof (IH seen). pose proof (IH (k' :: seen)).
  case_decide; rewrite !elem_of_cons in *; destruct (decide (k = k')); naive_solver.
Qed.

Lemma first_occ_go_snoc seen l k :
  first_occ_go seen (l ++ [k]) =
  first_occ_go seen l ++ (if decide (k ∈ seen ∨ k ∈ l) then [] else [k]).
Proof.
  revert seen. induction l as [|k' l IH]; intros seen; cbn.
  - repeat case_decide; case_contra.
  - case_decide; rewrite !IH; repeat case_decide; case_contra.
Qed.

Lemma first_occ_snoc l k :
  first_occ (l ++ [k]) = first_occ l ++ (if decide (k ∈ l) then [] else [k]).
Proof.
  unfold first_occ. rewrite first_occ_go_snoc. repeat case_decide; case_contra.
Qed.

Lemma elem_of_first_occ k l : k ∈ first_occ l ↔ k ∈ l.
Proof. unfold first_occ. rewrite first_occ_go_spec. set_solver. Qed.

Lemma NoDup_first_occ_go seen l : NoDup (first_occ_go seen l).
Proof.
  revert seen. induction l as [|k l IH]; intros seen; cbn; [constructor|].
  case_decide; [done|]. constructor; [|done].
  rewrite first_occ_go_spec. set_solver.
Qed.

(** Incrementing a counter given as [(k, g k)] for its keys [ks]. *)
Lemma counter_incr_fmap (g : K → nat) (ks : list K) k :
  NoDup ks →
  counter_incr k ((λ k', (k', g k')) <$> ks) =
  ((λ k', (k', if decide (k' = k) then S (g k') else g k')) <$> ks)
    ++ (if decide (k ∈ ks) then [] else [(k, 1)]).
Proof.
  induction ks as [|k' ks IH]; intros Hnd; cbn; [done|].
  apply NoDup_cons in Hnd as [Hk' Hnd].
  destruct (decide (k' = k)) as [<-|Hkk].
  - rewrite decide_True by set_solver. f_equal.
    rewrite app_nil_r. apply list_fmap_ext. intros i x Hx.
    apply list_elem_of_lookup_2 in Hx. rewrite decide_False; [done|set_solver].
  - rewrite IH by done. cbn. f_equal. repeat case_decide; case_contra.
Qed.

Lemma counter_get_fmap (g : K → nat) (ks : list K) k :
  counter_get k ((λ k', (k', g k')) <$> ks) = if decide (k ∈ ks) then g k else 0.
Proof.
  induction ks as [|k' ks IH]; cbn; [done|]. rewrite IH.
  destruct (decide (k' = k)) as [<-|]; repeat case_decide; case_contra.
Qed.

Lemma counter_get_incr k k' c :
  counter_get k (counter_incr k' c) = counter_get k c + if decide (k' = k) then 1 else 0.
Proof.
  induction c as [|[k'' n] c IH]; cbn; [repeat case_decide; done || lia|].
  destruct (decide (k'' = k')) as [->|]; cbn; repeat case_decide; subst; done || lia.
Qed.

Lemma elem_of_counter_incr_keys k k' c :
  k ∈ (counter_incr k' c).*1 ↔ k = k' ∨ k ∈ c.*1.
Proof.
  induction c as [|[k'' n] c IH]; cbn; [set_solver|].
  case_decide; subst; cbn; rewrite ?elem_of_cons, ?IH; naive_solver.
Qed.

Lemma NoDup_counter_incr k c : NoDup c.*1 → NoDup (counter_incr k c).*1.
Proof.
  induction c as [|[k' n] c IH]; cbn; intros Hnd; [repeat constructor; set_solver|].
  apply NoDup_cons in Hnd as [Hk' Hnd].
  case_decide; cbn; constructor; auto.
  rewrite elem_of_counter_incr_keys. naive_solver.
Qed.

Lemma insert_desc_perm x c : insert_desc x c ≡ₚ x :: c.
Proof.
  induction c as [|y c IH]; cbn; [done|]. case_decide; [done|].
  rewrite IH. apply Permutation_swap.
Qed.

Lemma sort_desc_perm c : sort_desc c ≡ₚ c.
Proof. induction c as [|x c IH]; cbn; [done|]. by rewrite insert_desc_perm, IH. Qed.

Lemma insert_desc_sorted x c :
  StronglySorted count_ge c → StronglySorted count_ge (insert_desc x c).
Proof.
  induction c as [|y c IH]; cbn; intros Hs; [repeat constructor|].
  apply StronglySorted_inv in Hs as [Hc Hy].
  case_decide as Hyx.
  - constructor; [by constructor|]. constructor; [exact Hyx|].
    eapply Forall_impl; [exact Hy|]. unfold count_ge. intros; lia.
  - constructor; [by apply IH|]. rewrite insert_desc_perm.
    constructor; [unfold count_ge; lia|exact Hy].
Qed.

Lemma with_count_insert n x c : with_count n (insert_desc x c) = with_count n (x :: c).
Proof.
  unfold with_count. induction c as [|y c IH]; cbn; [done|].
  case_decide; [done|]. rewrite !filter_cons, IH, filter_cons.
  repeat case_decide; subst; done || lia.
Qed.
End Counter.

Arguments count_ge {_} _ _ /.

#[export] Hint Resolve NoDup_first_occ_go : bbfs.

Section CounterTheory.
Context {K : Type} `{EqDecision K}.
Implicit Types (k : K) (c : list (K * nat)) (l : list K).

(** ** [Counter(xs)] *)

(** [Counter(xs)] holds each distinct element of [xs] once, in the order
    of its first occurrence, with its number of occurrences. *)
Theorem counter_of_spec l : counter_of l = (λ k, (k, occ k l)) <$> first_occ l.
Proof.
  induction l as [|x l IH] using rev_ind; [done|].
  rewrite counter_of_snoc, IH, counter_incr_fmap by apply NoDup_first_occ_go.
  rewrite first_occ_snoc, fmap_app. f_equal.
  - apply list_fmap_ext. intros i k _. rewrite occ_app, occ_cons, occ_nil.
    f_equal. repeat case_decide; subst; done || lia.
  - pose proof (elem_of_first_occ x l).
    repeat case_decide; [done|naive_solver..|]. cbn. do 3 f_equal.
    rewrite occ_app, occ_zero, occ_cons_eq by done. done.
Qed.

Lemma counter_of_keys l : (counter_of l).*1 = first_occ l.
Proof. rewrite counter_of_spec, <- list_fmap_compose. apply list_fmap_id. Qed.

Lemma NoDup_counter_of_keys l : NoDup (counter_of l).*1.
Proof. rewrite counter_of_keys. apply NoDup_first_occ_go. Qed.

Lemma counter_get_of l k : counter_get k (counter_of l) = occ k l.
Proof.
  rewrite counter_of_spec, counter_get_fmap. pose proof (elem_of_first_occ k l).
  case_decide; [done|]. rewrite occ_zero; naive_solver.
Qed.

Lemma elem_of_counter_of l k n : (k, n) ∈ counter_of l ↔ k ∈ l ∧ n = occ k l.
Proof.
  rewrite counter_of_spec, list_elem_of_fmap. split.
  - intros (k' & [= -> ->] & Hk). by rewrite elem_of_first_occ in Hk.
  - intros [Hk ->]. exists k. split; [done|]. by rewrite elem_of_first_occ.
Qed.

(** ** The stable descending sort *)

Lemma sort_desc_sorted c : StronglySorted count_ge (sort_desc c).
Proof.
  induction c as [|x c IH]; cbn; [constructor|]. by apply insert_desc_sorted.
Qed.

Lemma sort_desc_stable n c : with_count n (sort_desc c) = with_count n c.
Proof.
  induction c as [|x c IH]; cbn [sort_desc]; [done|].
  rewrite with_count_insert. unfold with_count in *. by rewrite !filter_cons, IH.
Qed.

Lemma elem_of_with_count x c : x ∈ c ↔ x ∈ with_count x.2 c.
Proof. unfold with_count. rewrite list_elem_of_filter. naive_solver. Qed.

Lemma with_count_cons_self x c : with_count x.2 (x :: c) = x :: with_count x.2 c.
Proof. unfold with_count. by rewrite filter_cons_True. Qed.

(** Two lists sorted by descending count with the same items of each
    count, in the same order, are equal. *)
Lemma sorted_stable_unique c1 c2 :
  StronglySorted count_ge c1 → StronglySorted count_ge c2 →
  (∀ n, with_count n c1 = with_count n c2) → c1 = c2.
Proof.
  revert c2. induction c1 as [|x c1 IH]; intros [|y c2] Hs1 Hs2 Hw; [done|..].
  - specialize (Hw y.2). by rewrite with_count_cons_self in Hw.
  - specialize (Hw x.2). by rewrite with_count_cons_self in Hw.
  - apply StronglySorted_inv in Hs1 as [Hs1 Hx], Hs2 as [Hs2 Hy].
    assert (y ∈ x :: c1) as Hy1.
    { rewrite elem_of_with_count, Hw, <- elem_of_with_count. by left. }
    assert (x ∈ y :: c2) as Hx2.
    { rewrite elem_of_with_count, <- Hw, <- elem_of_with_count. by left. }
    rewrite Forall_forall in Hx, Hy.
    assert (x.2 = y.2) as Hxy.
    { apply elem_of_cons in Hy1 as [->|Hy1]; [done|].
      apply elem_of_cons in Hx2 as [->|Hx2]; [done|].
      specialize (Hx y Hy1). specialize (Hy x Hx2). cbn in *. lia. }
    pose proof (Hw x.2) as Hwx. rewrite with_count_cons_self, Hxy,
      with_count_cons_self in Hwx. injection Hwx as <- _.
    f_equal. apply IH; [done..|]. intros n. specialize (Hw n).
    unfold with_count in Hw |- *. rewrite !filter_cons in Hw.
    case_decide; [by injection Hw|done].
Qed.

(** Refinement: [sort_desc] implements the contract of Python's
    [sorted(items, key=count, reverse=True)]: the result is ordered by
    descending count and the sort is stable (the items of each count keep
    their order).  The contract determines the result: a list meets it
    exactly when it is [sort_desc c]. *)
Theorem sort_desc_spec c c' :
  (StronglySorted count_ge c' ∧ ∀ n, with_count n c' = with_count n c) ↔ c' = sort_desc c.
Proof.
  split.
  - intros [Hs Hw]. apply sorted_stable_unique; [done|apply sort_desc_sorted|].
    intros n. by rewrite Hw, sort_desc_stable.
  - intros ->. split; [apply sort_desc_sorted|]. intros n. apply sort_desc_stable.
Qed.

(** ** [most_common(n)] *)

Lemma most_common_app_drop n c :
  most_common n c ++ drop (Z.to_nat n) (sort_desc c) = sort_desc c.
Proof. apply take_drop. Qed.

(** [most_common(n)] returns [min(n, len(c))] items (none when [n <= 0]),
    sorted by descending count; every item it leaves out has a count no
    larger than any item it returns; and within one count it returns the
    items that were inserted first. *)
Theorem most_common_top n c :
  length (most_common n c) = Nat.min (Z.to_nat n) (length c) ∧
  StronglySorted count_ge (most_common n c) ∧
  (∃ rest, most_common n c ++ rest ≡ₚ c ∧
           ∀ x y, x ∈ most_common n c → y ∈ rest → y.2 ≤ x.2) ∧
  (∀ m, with_count m (most_common n c) `prefix_of` with_count m c).
Proof.
  pose proof (sort_desc_sorted c) as Hs.
  pose proof (most_common_app_drop n c) as Happ.
  split_and!.
  - unfold most_common. by rewrite length_take, sort_desc_perm.
  - rewrite <- Happ in Hs. by apply StronglySorted_app_1_l in Hs.
  - exists (drop (Z.to_nat n) (sort_desc c)). rewrite Happ, sort_desc_perm.
    split; [done|]. intros x y Hx Hy. rewrite <- Happ in Hs.
    exact (StronglySorted_app_1_elem_of _ _ _ x y Hs Hx Hy).
  - intros m. rewrite <- (sort_desc_stable m c), <- Happ.
    unfold with_count. rewrite filter_app. by apply prefix_app_r.
Qed.
End CounterTheory.
