(* ===== verification/DigitAnalyzer.v ===== *)
(** * The digit analyzer: [analisis_digit] (main.py lines 47-61)

    [analisis_digit(history)] walks every token and every character of it
    with its index [i] ([enumerate]); [int(d)] either returns the digit,
    which is appended to the flat list [semua_digit] and to the list of
    position [i] in the [defaultdict(list)] [posisi_digit], or raises
    [ValueError] and the character is skipped.  The two accumulators are the
    record [AnalysisState]; the dictionary is a [gmap nat (list Z)] (its
    insertion order is never observed). *)

From S2P Require Import Prelude PyStr.

Record AnalysisState := {
  semua_digit : list Z;
  posisi_digit : gmap nat (list Z)
}.

Section DigitAnalyzer.
Context `{PyUnicode}.

(** [int(d)] for the one-character string [d]. *)
Definition int_of_char (d : N) : option Z := py_int [d].

(** The body of the inner loop for the character [d] at index [i]. *)
Definition digit_step (st : AnalysisState) (i : nat) (d : N) : AnalysisState :=
  match int_of_char d with
  | Some digit =>
      {| semua_digit := semua_digit st ++ [digit];
         posisi_digit := <[i := default [] (posisi_digit st !! i) ++ [digit]]> (posisi_digit st) |}
  | None => st
  end.

(** [for i, d in enumerate(angka)], the index starting at [i]. *)
Fixpoint scan_token (st : AnalysisState) (i : nat) (angka : pystr) : AnalysisState :=
  match angka with
  | [] => st
  | d :: angka' => scan_token (digit_step st i d) (S i) angka'
  end.

Definition analysis_init : AnalysisState := {| semua_digit := []; posisi_digit := ∅ |}.

(** [analisis_digit(history)]: the outer loop over the tokens. *)
Definition analisis_digit (history : list pystr) : AnalysisState :=
  foldl (λ st angka, scan_token st 0 angka) analysis_init history.

(** The digits of one token, in order. *)
Definition token_digits (angka : pystr) : list Z := omap int_of_char angka.

(** The digit at index [j] of a token, if that character is a digit. *)
Definition digit_at (j : nat) (angka : pystr) : option Z := angka !! j ≫= int_of_char.

(** The values of the position map, as one list. *)
Definition posisi_values (m : gmap nat (list Z)) : list Z := concat (map_to_list m).*2.

(** ** Lemmas *)

Lemma int_of_char_spec d : int_of_char d = Z.of_nat <$> uc_decimal d.
Proof. apply py_int_single. Qed.

Lemma int_of_char_bound d v : int_of_char d = Some v → (0 ≤ v ≤ 9)%Z.
Proof.
  rewrite int_of_char_spec. destruct (uc_decimal d) as [w|] eqn:E; [|done].
  intros [= <-]. apply uc_decimal_lt in E. lia.
Qed.

Lemma scan_token_semua st i a :
  semua_digit (scan_token st i a) = semua_digit st ++ token_digits a.
Proof.
  revert st i. induction a as [|d a IH]; intros st i; cbn; [by rewrite app_nil_r|].
  rewrite IH. unfold digit_step, token_digits. cbn.
  destruct (int_of_char d); cbn; [by rewrite <- app_assoc|done].
Qed.

Lemma scan_token_posisi st i a j :
  default [] (posisi_digit (scan_token st i a) !! j) =
  default [] (posisi_digit st !! j) ++
    (if decide (i ≤ j) then option_list (digit_at (j - i) a) else []).
Proof.
  revert st i. induction a as [|d a IH]; intros st i; cbn.
  - unfold digit_at. case_decide; by rewrite ?lookup_nil, app_nil_r.
  - rewrite IH. destruct (decide (i = j)) as [<-|Hij].
    + unfold digit_at. rewrite Nat.sub_diag. repeat case_decide; try lia. cbn.
      unfold digit_step. destruct (int_of_char d); cbn;
        [by rewrite lookup_insert_eq, !app_nil_r|by rewrite app_nil_r].
    + assert (posisi_digit (digit_step st i d) !! j = posisi_digit st !! j) as ->.
      { unfold digit_step. destruct (int_of_char d); cbn; [by rewrite lookup_insert_ne|done]. }
      unfold digit_at. repeat case_decide; try lia; [|done].
      by replace (j - i) with (S (j - S i)) by lia.
Qed.

Lemma scan_token_nonempty st i a :
  map_Forall (λ _ v, v ≠ []) (posisi_digit st) →
  map_Forall (λ _ v, v ≠ []) (posisi_digit (scan_token st i a)).
Proof.
  revert st i. induction a as [|d a IH]; intros st i Hst; cbn; [done|].
  apply IH. unfold digit_step. destruct (int_of_char d); [|done]. cbn.
  apply map_Forall_insert_2; [|done]. by destruct (default _ _).
Qed.

Lemma posisi_values_insert_snoc (m : gmap nat (list Z)) i x :
  posisi_values (<[i := default [] (m !! i) ++ [x]]> m) ≡ₚ posisi_values m ++ [x].
Proof.
  unfold posisi_values. destruct (m !! i) as [v|] eqn:Hi; cbn.
  - rewrite <- (insert_delete_eq m i (v ++ [x])).
    rewrite <- (insert_delete_id m i v) at 2 by done.
    rewrite !map_to_list_insert by apply lookup_delete_eq. cbn.
    rewrite <- !app_assoc. apply Permutation_app_head. by rewrite Permutation_app_comm.
  - rewrite map_to_list_insert by done. cbn. by rewrite Permutation_app_comm.
Qed.

Lemma scan_token_values st i a :
  posisi_values (posisi_digit (scan_token st i a)) ≡ₚ
    posisi_values (posisi_digit st) ++ token_digits a.
Proof.
  revert st i. induction a as [|d a IH]; intros st i; cbn; [by rewrite app_nil_r|].
  rewrite IH. unfold digit_step, token_digits. cbn.
  destruct (int_of_char d); cbn; [|done].
  rewrite posisi_values_insert_snoc. by rewrite <- app_assoc.
Qed.
End DigitAnalyzer.

Section DigitAnalyzerTheory.
Context `{PyUnicode}.

Let step := λ st angka, scan_token st 0 angka.

Lemma analisis_fold_semua h st :
  semua_digit (foldl step st h) = semua_digit st ++ concat (token_digits <$> h).
Proof.
  revert st. induction h as [|a h IH]; intros st; cbn; [by rewrite app_nil_r|].
  rewrite IH. subst step. cbn. by rewrite scan_token_semua, app_assoc.
Qed.

Lemma analisis_fold_posisi h st j :
  default [] (posisi_digit (foldl step st h) !! j) =
  default [] (posisi_digit st !! j) ++ omap (digit_at j) h.
Proof.
  revert st. induction h as [|a h IH]; intros st; cbn; [by rewrite app_nil_r|].
  rewrite IH. subst step. cbn. rewrite scan_token_posisi, decide_True, Nat.sub_0_r by lia.
  rewrite <- app_assoc. by destruct (digit_at j a).
Qed.

Lemma analisis_fold_nonempty h st :
  map_Forall (λ _ v, v ≠ []) (posisi_digit st) →
  map_Forall (λ _ v, v ≠ []) (posisi_digit (foldl step st h)).
Proof.
  revert st. induction h as [|a h IH]; intros st Hst; cbn; [done|].
  apply IH. by apply scan_token_nonempty.
Qed.

Lemma analisis_fold_values h st :
  posisi_values (posisi_digit (foldl step st h)) ≡ₚ
    posisi_values (posisi_digit st) ++ concat (token_digits <$> h).
Proof.
  revert st. induction h as [|a h IH]; intros st; cbn; [by rewrite app_nil_r|].
  rewrite IH. subst step. cbn. by rewrite scan_token_values, app_assoc.
Qed.

(** The flat list [semua_digit] is the decimal value of every decimal
    character of every token, tokens in order and each token read left to
    right; every other character is skipped. *)
Theorem analisis_digit_semua (h : list pystr) :
  semua_digit (analisis_digit h) =
    concat ((λ angka : pystr, omap (λ d, Z.of_nat <$> uc_decimal d) angka) <$> h).
Proof.
  unfold analisis_digit. fold step. rewrite analisis_fold_semua. cbn.
  f_equal. apply list_fmap_ext. intros _ a _. unfold token_digits.
  apply list_omap_ext, Forall_Forall2_diag, Forall_forall. intros d _.
  apply int_of_char_spec.
Qed.

(** C18: [posisi_digit[j]] exists exactly when some token has a digit at index
    [j], and then lists those digits, tokens in order. *)
Theorem analisis_digit_posisi (h : list pystr) j :
  posisi_digit (analisis_digit h) !! j =
    match omap (digit_at j) h with [] => None | ds => Some ds end.
Proof.
  pose proof (analisis_fold_posisi h analysis_init j) as Hp.
  pose proof (analisis_fold_nonempty h analysis_init (map_Forall_empty _)) as Hn.
  unfold analisis_digit. fold step. cbn in Hp. rewrite lookup_empty in Hp. cbn in Hp.
  destruct (posisi_digit (foldl step analysis_init h) !! j) as [vs|] eqn:E; cbn in Hp.
  - specialize (Hn j vs E). cbn in Hn. rewrite <- Hp. by destruct vs.
  - by rewrite <- Hp.
Qed.

(** Every digit recorded, in the flat list or by position, is in [0..9]. *)
Theorem analisis_digit_bounds (h : list pystr) :
  Forall (λ v, 0 ≤ v ≤ 9)%Z (semua_digit (analisis_digit h)) ∧
  map_Forall (λ _ vs, Forall (λ v, 0 ≤ v ≤ 9)%Z vs) (posisi_digit (analisis_digit h)).
Proof.
  unfold analisis_digit. fold step. split.
  - rewrite analisis_fold_semua. cbn.
    apply Forall_concat, Forall_fmap, Forall_forall. intros a _.
    apply Forall_forall. intros v (d & _ & Hd)%list_elem_of_omap.
    by apply int_of_char_bound in Hd.
  - intros j vs Hj. pose proof (analisis_fold_posisi h analysis_init j) as Hp.
    rewrite Hj in Hp. cbn [posisi_digit analysis_init] in Hp.
    rewrite lookup_empty in Hp. cbn in Hp. rewrite Hp.
    apply Forall_forall. intros v (a & _ & Hv)%list_elem_of_omap.
    unfold digit_at in Hv. destruct (a !! j) as [d|]; [|done]. cbn in Hv.
    by apply int_of_char_bound in Hv.
Qed.

(** C19: The position map accounts for every digit exactly once: its values,
    taken together, are a permutation of [semua_digit]. *)
Theorem analisis_digit_accounting (h : list pystr) :
  posisi_values (posisi_digit (analisis_digit h)) ≡ₚ semua_digit (analisis_digit h).
Proof.
  unfold analisis_digit. fold step. rewrite analisis_fold_values, analisis_fold_semua. cbn.
  unfold posisi_values. by rewrite map_to_list_empty.
Qed.
(** ** Well-formedness of the analyzer's state *)

(** A well-formed state: every recorded value is a digit, every position
    holds a non-empty list, and the position lists together are a
    permutation of the flat list. *)
Definition analysis_wf (st : AnalysisState) : Prop :=
  Forall (λ v, 0 ≤ v ≤ 9)%Z (semua_digit st) ∧
  map_Forall (λ _ vs, vs ≠ [] ∧ Forall (λ v, 0 ≤ v ≤ 9)%Z vs) (posisi_digit st) ∧
  posisi_values (posisi_digit st) ≡ₚ semua_digit st.

Lemma analysis_init_wf : analysis_wf analysis_init.
Proof.
  split_and!; [constructor|apply map_Forall_empty|]. cbn [posisi_digit semua_digit analysis_init]. unfold posisi_values. by rewrite map_to_list_empty.
Qed.

Lemma digit_step_wf st i d : analysis_wf st → analysis_wf (digit_step st i d).
Proof.
  intros (Hs & Hp & Hv). unfold digit_step.
  destruct (int_of_char d) as [v|] eqn:Hd; [|done]. apply int_of_char_bound in Hd.
  split_and!; cbn [semua_digit posisi_digit].
  - apply Forall_app. by split; [|constructor].
  - apply map_Forall_insert_2; [|done]. split; [by destruct (default _ _)|].
    apply Forall_app. split; [|by constructor].
    destruct (posisi_digit st !! i) as [vs|] eqn:Hi; [|constructor]. by apply (Hp i vs Hi).
  - rewrite posisi_values_insert_snoc, Hv. done.
Qed.

Lemma scan_token_wf st i a : analysis_wf st → analysis_wf (scan_token st i a).
Proof.
  revert st i. induction a as [|d a IH]; intros st i Hst; cbn [scan_token]; [done|].
  by apply IH, digit_step_wf.
Qed.

Lemma analisis_loop_wf st h :
  analysis_wf st → analysis_wf (foldl (λ st angka, scan_token st 0 angka) st h).
Proof.
  revert st. induction h as [|a h IH]; intros st Hst; cbn [foldl]; [done|].
  by apply IH, scan_token_wf.
Qed.

(** C23: Well-formedness of the two accumulators ([semua_digit] holds only
    digits [0..9], no list of [posisi_digit] is empty, and the position
    lists hold exactly the digits of the flat list) is an inductive
    invariant of [analisis_digit]: the initial state has it, the body of
    the inner loop, the inner loop and the outer loop preserve it from any
    state that has it, so it holds after every iteration. *)
Theorem analysis_wf_inductive :
  analysis_wf analysis_init ∧
  (∀ st i d, analysis_wf st → analysis_wf (digit_step st i d)) ∧
  (∀ st i a, analysis_wf st → analysis_wf (scan_token st i a)) ∧
  (∀ st h, analysis_wf st → analysis_wf (foldl (λ st angka, scan_token st 0 angka) st h)) ∧
  ∀ h, analysis_wf (analisis_digit h).
Proof.
  split_and!; [apply analysis_init_wf|apply digit_step_wf|apply scan_token_wf|apply analisis_loop_wf|].
  intros h. apply analisis_loop_wf, analysis_init_wf.
Qed.
End DigitAnalyzerTheory.
