(* ===== verification/PairCounter.v ===== *)
(** * The pair counter: [hitung_angka_ikut] (main.py lines 64-73)

    For every token the function builds [digit_unik = sorted(list(set(angka)))]
    (the distinct characters in code-point order), then runs the double index
    loop [for i in range(len(u)): for j in range(i + 1, len(u))] and, when
    both characters pass [str.isdigit], increments the [Counter] entry of the
    pair [(u[i], u[j])].  The set is a [gset N], [sorted] is stdpp's
    [merge_sort] on code points, the counter is [PyCounter]'s association
    list with keys [N * N] (pairs of one-character strings). *)

From S2P Require Import Prelude PyStr PyCounter.

Section PairCounter.
Context `{PyUnicode}.
Implicit Types (angka u : pystr) (c : list ((N * N) * nat)).

(** [sorted(list(set(angka)))]. *)
Definition digit_unik angka : pystr :=
  merge_sort (≤)%N (elements (list_to_set angka : gset N)).

(** The body of the inner loop for the characters [a = u[i]], [b = u[j]]. *)
Definition pair_body (a b : N) c : list ((N * N) * nat) :=
  if py_isdigit [a] && py_isdigit [b] then counter_incr (a, b) c else c.

(** [u[i]] and [u[j]] with [i, j < len(u)]; the [None] case does not
    occur, the loops only produce indices in range. *)
Definition pair_step u c (i j : nat) : list ((N * N) * nat) :=
  match u !! i, u !! j with
  | Some a, Some b => pair_body a b c
  | _, _ => c
  end.

(** [for j in range(i + 1, len(u))]. *)
Definition inner_loop u (i : nat) c : list ((N * N) * nat) :=
  foldl (λ c j, pair_step u c i j) c (seq (S i) (length u - S i)).

(** [for i in range(len(u))]. *)
Definition outer_loop u c : list ((N * N) * nat) :=
  foldl (λ c i, inner_loop u i c) c (seq 0 (length u)).

(** [hitung_angka_ikut(history)]. *)
Definition hitung_angka_ikut (history : list pystr) : list ((N * N) * nat) :=
  foldl (λ c angka, outer_loop (digit_unik angka) c) [] history.

(** The pairs [(u[i], u[j])] with [i < j], in the loops' order. *)
Fixpoint pairs_of u : list (N * N) :=
  match u with
  | [] => []
  | a :: u' => ((λ b, (a, b)) <$> u') ++ pairs_of u'
  end.

(** One step of the walk over the pairs. *)
Definition count_pairs c (p : N * N) : list ((N * N) * nat) := pair_body p.1 p.2 c.

(** A pair the loop counts: both characters are digits. *)
Definition digit_pair (p : N * N) : Prop := uc_isdigit p.1 = true ∧ uc_isdigit p.2 = true.

#[export] Instance digit_pair_dec p : Decision (digit_pair p).
Proof. unfold digit_pair. apply _. Defined.

(** ** The index loops are a walk over [pairs_of] *)

Lemma inner_loop_drop u i a c :
  u !! i = Some a →
  inner_loop u i c = foldl (λ c b, pair_body a b c) c (drop (S i) u).
Proof.
  intros Ha. unfold inner_loop.
  assert (∀ m n c, m + n = length u → S i ≤ m →
    foldl (λ c j, pair_step u c i j) c (seq m n) = foldl (λ c b, pair_body a b c) c (drop m u))
    as Hgen.
  { intros m n. revert m. induction n as [|n IH]; intros m c' Hmn Hm; cbn.
    - by rewrite drop_ge by lia.
    - destruct (u !! m) as [b|] eqn:Hb; [|apply lookup_ge_None in Hb; lia].
      rewrite (drop_S _ _ _ Hb). cbn.
      replace (pair_step u c' i m) with (pair_body a b c') by (unfold pair_step; by rewrite Ha, Hb).
      apply IH; lia. }
  apply Hgen; [|lia]. apply lookup_lt_Some in Ha. lia.
Qed.

Lemma outer_loop_drop u m n c :
  m + n = length u →
  foldl (λ c i, inner_loop u i c) c (seq m n) =
  foldl count_pairs c (pairs_of (drop m u)).
Proof.
  revert m c. induction n as [|n IH]; intros m c Hmn; cbn.
  - by rewrite drop_ge by lia.
  - destruct (u !! m) as [a|] eqn:Ha; [|apply lookup_ge_None in Ha; lia].
    rewrite (drop_S _ _ _ Ha). cbn [pairs_of]. rewrite foldl_app, foldl_fmap.
    rewrite (inner_loop_drop _ _ a) by done. apply IH. lia.
Qed.

(** Equivalence of the double index loop with the walk over the pairs
    [(u[i], u[j])], [i < j], in the same order. *)
Theorem outer_loop_pairs u c :
  outer_loop u c = foldl count_pairs c (pairs_of u).
Proof. unfold outer_loop. rewrite outer_loop_drop by done. by rewrite drop_0. Qed.
End PairCounter.

Section PairCounterTheory.
Context `{PyUnicode}.
Implicit Types (angka u : pystr) (c : list ((N * N) * nat)).

Lemma pair_body_digit_pair a b c :
  pair_body a b c = if decide (digit_pair (a, b)) then counter_incr (a, b) c else c.
Proof.
  unfold pair_body. rewrite !py_isdigit_single.
  case_decide as Hd; unfold digit_pair in Hd; cbn in Hd.
  - by destruct Hd as [-> ->].
  - destruct (uc_isdigit a), (uc_isdigit b); naive_solver.
Qed.

Lemma count_pairs_get k c ps :
  counter_get k (foldl count_pairs c ps) = counter_get k c + occ k (filter digit_pair ps).
Proof.
  revert c. induction ps as [|[a b] ps IH]; intros c; cbn [foldl]; [cbn; lia|].
  rewrite IH, filter_cons. unfold count_pairs at 1. cbn [fst snd].
  rewrite pair_body_digit_pair. repeat case_decide; rewrite ?counter_get_incr, ?occ_cons;
    done || lia.
Qed.

Lemma count_pairs_keys k c ps :
  k ∈ (foldl count_pairs c ps).*1 → k ∈ c.*1 ∨ k ∈ filter digit_pair ps.
Proof.
  revert c. induction ps as [|[a b] ps IH]; intros c; cbn [foldl]; [by left|].
  rewrite filter_cons. intros [Hk|Hk]%IH; [|right; case_decide; set_solver].
  unfold count_pairs in Hk. cbn [fst snd] in Hk. rewrite pair_body_digit_pair in Hk.
  case_decide; [|by left].
  apply elem_of_counter_incr_keys in Hk as [->|]; [right|by left]. set_solver.
Qed.

Lemma count_pairs_NoDup c ps : NoDup c.*1 → NoDup (foldl count_pairs c ps).*1.
Proof.
  revert c. induction ps as [|p ps IH]; intros c Hc; cbn; [done|].
  apply IH. unfold count_pairs. cbn. rewrite pair_body_digit_pair.
  case_decide; [by apply NoDup_counter_incr|done].
Qed.

(** A strictly increasing list: its pairs are the increasing pairs of its
    elements, each once. *)
Lemma elem_of_pairs_of u a b :
  StronglySorted (<)%N u → (a, b) ∈ pairs_of u ↔ a ∈ u ∧ b ∈ u ∧ (a < b)%N.
Proof.
  induction 1 as [|x u Hs IH Hx]; cbn; [set_solver|].
  rewrite Forall_forall in Hx.
  rewrite elem_of_app, list_elem_of_fmap, IH, !elem_of_cons.
  split.
  - intros [(b' & Heq & Hb)|(? & ? & ?)]; [|naive_solver].
    injection Heq as ? ?; subst. specialize (Hx _ Hb). naive_solver.
  - intros ([->|Ha] & [->|Hb] & Hab); [lia|by left; eauto|..|by right].
    specialize (Hx a Ha). lia.
Qed.

Lemma NoDup_pairs_of u : StronglySorted (<)%N u → NoDup (pairs_of u).
Proof.
  induction 1 as [|x u Hs IH Hx]; cbn; [constructor|].
  rewrite Forall_forall in Hx.
  apply NoDup_app. split_and!.
  - apply NoDup_fmap; [congruence|].
    apply (StronglySorted_irrefl_NoDup (<)%N); [intros ? ?; lia|done].
  - intros [a b] (b' & [= -> ->] & _)%list_elem_of_fmap Hin.
    apply elem_of_pairs_of in Hin as (Hxu & _); [|done]. specialize (Hx x Hxu). lia.
  - done.
Qed.

Lemma elem_of_digit_unik angka x : x ∈ digit_unik angka ↔ x ∈ angka.
Proof.
  unfold digit_unik. by rewrite merge_sort_Permutation, elem_of_elements, elem_of_list_to_set.
Qed.

Lemma digit_unik_sorted angka : StronglySorted (<)%N (digit_unik angka).
Proof.
  apply StronglySorted_le_lt_N.
  - apply StronglySorted_merge_sort; apply _.
  - unfold digit_unik. rewrite merge_sort_Permutation. apply NoDup_elements.
Qed.

Lemma outer_loop_get angka c a b :
  counter_get (a, b) (outer_loop (digit_unik angka) c) =
  counter_get (a, b) c +
    if decide (digit_pair (a, b) ∧ (a < b)%N ∧ a ∈ angka ∧ b ∈ angka) then 1 else 0.
Proof.
  rewrite outer_loop_pairs, count_pairs_get, occ_filter.
  rewrite occ_NoDup by (apply NoDup_pairs_of, digit_unik_sorted).
  pose proof (elem_of_pairs_of _ a b (digit_unik_sorted angka)) as Hp.
  rewrite !elem_of_digit_unik in Hp.
  repeat case_decide; first [lia | exfalso; naive_solver].
Qed.

Lemma hitung_fold_get h c a b :
  counter_get (a, b) (foldl (λ c angka, outer_loop (digit_unik angka) c) c h) =
  counter_get (a, b) c + if decide (digit_pair (a, b) ∧ (a < b)%N)
                         then length (filter (λ angka, a ∈ angka ∧ b ∈ angka) h) else 0.
Proof.
  revert c. induction h as [|angka h IH]; intros c; cbn [foldl]; [case_decide; cbn; lia|].
  rewrite IH, outer_loop_get, filter_cons.
  repeat case_decide; cbn; first [lia | exfalso; naive_solver].
Qed.

Lemma hitung_fold_keys h c k :
  k ∈ (foldl (λ c angka, outer_loop (digit_unik angka) c) c h).*1 →
  k ∈ c.*1 ∨ ∃ angka, angka ∈ h ∧ k ∈ filter digit_pair (pairs_of (digit_unik angka)).
Proof.
  revert c. induction h as [|angka h IH]; intros c; cbn [foldl]; [by left|].
  intros [Hk|(angka' & ? & ?)]%IH; [|right; exists angka'; set_solver].
  rewrite outer_loop_pairs in Hk. apply count_pairs_keys in Hk as [|Hk]; [by left|].
  right. exists angka. set_solver.
Qed.

Lemma hitung_fold_NoDup h c :
  NoDup c.*1 → NoDup (foldl (λ c angka, outer_loop (digit_unik angka) c) c h).*1.
Proof.
  revert c. induction h as [|angka h IH]; intros c Hc; cbn [foldl]; [done|].
  apply IH. rewrite outer_loop_pairs. by apply count_pairs_NoDup.
Qed.

(** ** The pair counter *)

(** C3: The count of the pair [(a, b)] is the number of tokens that contain
    both characters, when [a < b] and both are digits ([str.isdigit]); every
    other pair has count [0].  Repeated characters in a token count once. *)
Theorem hitung_angka_ikut_count (h : list pystr) a b :
  counter_get (a, b) (hitung_angka_ikut h) =
  if decide (digit_pair (a, b) ∧ (a < b)%N)
  then length (filter (λ angka, a ∈ angka ∧ b ∈ angka) h) else 0.
Proof. unfold hitung_angka_ikut. rewrite hitung_fold_get. cbn. lia. Qed.

(** C17: The keys of the counter are distinct, order-normalised pairs
    [(a, b)] with [a < b] of digit characters that occur together in some
    token. *)
Theorem hitung_angka_ikut_keys (h : list pystr) :
  NoDup (hitung_angka_ikut h).*1 ∧
  ∀ a b, (a, b) ∈ (hitung_angka_ikut h).*1 →
    (a < b)%N ∧ uc_isdigit a = true ∧ uc_isdigit b = true ∧
    ∃ angka, angka ∈ h ∧ a ∈ angka ∧ b ∈ angka.
Proof.
  split.
  - apply hitung_fold_NoDup. constructor.
  - intros a b Hk. apply hitung_fold_keys in Hk as [Hk|(angka & Hin & Hk)]; [set_solver|].
    apply list_elem_of_filter in Hk as [[Ha Hb] Hp].
    apply elem_of_pairs_of in Hp as (Ha' & Hb' & Hab); [|apply digit_unik_sorted].
    rewrite !elem_of_digit_unik in Ha', Hb'. split_and!; eauto.
Qed.

Lemma filter_pair_fmap (P : N → Prop) `{∀ x, Decision (P x)} a u :
  filter (λ p : N * N, P p.1 ∧ P p.2) ((λ b, (a, b)) <$> u) =
  if decide (P a) then (λ b, (a, b)) <$> filter P u else [].
Proof.
  induction u as [|b u IH]; [by case_decide|].
  rewrite fmap_cons, !filter_cons, IH. cbn [fst snd].
  repeat case_decide; first [done | exfalso; naive_solver].
Qed.

Lemma filter_pairs_of (P : N → Prop) `{∀ x, Decision (P x)} u :
  filter (λ p : N * N, P p.1 ∧ P p.2) (pairs_of u) = pairs_of (filter P u).
Proof.
  induction u as [|a u IH]; [done|]. cbn [pairs_of].
  rewrite filter_app, IH, filter_pair_fmap, filter_cons. by case_decide.
Qed.

Lemma digit_unik_filter (P : N → Prop) `{∀ x, Decision (P x)} angka :
  digit_unik (filter P angka) = filter P (digit_unik angka).
Proof.
  apply (StronglySorted_unique (<)%N).
  - apply digit_unik_sorted.
  - apply StronglySorted_filter, digit_unik_sorted.
  - apply NoDup_Permutation.
    + apply (StronglySorted_irrefl_NoDup (<)%N); [intros ??; lia|apply digit_unik_sorted].
    + apply NoDup_filter, (StronglySorted_irrefl_NoDup (<)%N);
        [intros ??; lia|apply digit_unik_sorted].
    + intros x. by rewrite elem_of_digit_unik, !list_elem_of_filter, elem_of_digit_unik.
Qed.

(** Validating the characters before de-duplicating them gives the same
    pairs as the code's de-duplicate, sort, then test [isdigit] order. *)
Lemma filter_pairs_digit_unik angka :
  filter digit_pair (pairs_of (digit_unik angka)) =
  pairs_of (digit_unik (filter (λ d, uc_isdigit d = true) angka)).
Proof.
  rewrite digit_unik_filter, <- filter_pairs_of.
  apply list_filter_iff. intros [a b]. done.
Qed.

Lemma foldl_count_pairs c l :
  foldl count_pairs c l = foldl (λ c p, counter_incr p c) c (filter digit_pair l).
Proof.
  revert c. induction l as [|[a b] l IH]; intros c; [done|].
  cbn [foldl]. rewrite filter_cons. change (count_pairs c (a, b)) with (pair_body a b c).
  rewrite pair_body_digit_pair. case_decide; by rewrite IH.
Qed.

(** The specification's order (sections 4.3 and 9): the characters of a
    token are validated with [isdigit] first, then the repetitions are
    dropped and the rest put in increasing order; written with list
    functions, independently of the code's [set] and [sorted]. *)
Definition validated_digits (angka : pystr) : pystr :=
  merge_sort (≤)%N (remove_dups (filter (λ d, uc_isdigit d = true) angka)).

(** The pair counter of the specification: every pair [a < b] of validated
    digits of a token counted once. *)
Definition hitung_validated (history : list pystr) : list ((N * N) * nat) :=
  foldl (λ c angka, foldl (λ c p, counter_incr p c) c (pairs_of (validated_digits angka))) [] history.

Lemma validated_digits_NoDup angka : NoDup (validated_digits angka).
Proof. unfold validated_digits. rewrite merge_sort_Permutation. apply NoDup_remove_dups. Qed.

Lemma digit_unik_validated angka :
  digit_unik (filter (λ d, uc_isdigit d = true) angka) = validated_digits angka.
Proof.
  apply (StronglySorted_unique (<)%N).
  - apply digit_unik_sorted.
  - apply StronglySorted_le_lt_N; [apply StronglySorted_merge_sort; apply _|apply validated_digits_NoDup].
  - apply NoDup_Permutation; [|apply validated_digits_NoDup|].
    + apply (StronglySorted_irrefl_NoDup (<)%N); [intros ??; lia|apply digit_unik_sorted].
    + intros x. unfold validated_digits.
      by rewrite elem_of_digit_unik, merge_sort_Permutation, elem_of_remove_dups.
Qed.

(** C16: The code's counter is the specification's: de-duplicating with a
    [set], sorting and testing [isdigit] inside the loop gives the same
    counter, keys in the same order, as validating first and counting every
    pair of distinct digits in increasing order. *)
Theorem hitung_angka_ikut_validated (h : list pystr) : hitung_angka_ikut h = hitung_validated h.
Proof.
  unfold hitung_angka_ikut, hitung_validated. generalize (@nil ((N * N) * nat)).
  induction h as [|angka h IH]; intros c; [done|]. cbn [foldl].
  by rewrite outer_loop_pairs, foldl_count_pairs, filter_pairs_digit_unik, digit_unik_validated, IH.
Qed.
End PairCounterTheory.
