(* ===== verification/Report.v ===== *)
(** * The report: [generate_bbfs_prediktif] (main.py lines 76-111)

    The function returns a canned message for an empty history and for a
    history without digits; otherwise it ranks the digits with
    [Counter(semua_digit).most_common(top_n)], writes the header, the ranked
    digits, the recommended set (their [str()] joined), its mirror (each
    digit through [mirror_number]), the five strongest pairs when there are
    any, and the disclaimer.  The text is built by [+=] in the source and by
    [++] here, one definition per line template.  An exception escaping the
    function (only [int()] inside [mirror_number] could raise) is [None]. *)

From S2P Require Import Prelude PyStr Mirror PyCounter DigitAnalyzer PairCounter.
Import (notations) Stdlib.Strings.String.

Section Report.
Context `{PyUnicode}.

(** ** The texts *)

Definition msg_kosong : pystr :=
  u8 "Data histori kosong atau tidak valid. Tidak ada yang bisa dianalisis.".

Definition msg_tidak_ada_digit : pystr :=
  u8 "Tidak ada digit valid yang ditemukan dalam histori.".

Definition header_line (n : nat) : pystr :=
  u8 "🔥 *Hasil Analisis dari " ++ py_str_nat n ++ u8 " Data Terakhir* 🔥" ++ nl ++ nl.

Definition top_title (k : nat) : pystr :=
  u8 "1️⃣ *Top " ++ py_str_nat k ++ u8 " Angka Paling Sering Muncul:*" ++ nl.

Definition digit_line (digit : Z) (freq : nat) : pystr :=
  u8 "   - Angka `" ++ py_str_Z digit ++ u8 "`: muncul " ++ py_str_nat freq ++ u8 " kali" ++ nl.

Definition bbfs_title (k : nat) : pystr :=
  nl ++ u8 "2️⃣ *Rekomendasi BBFS " ++ py_str_nat k ++ u8 " Digit:*" ++ nl.

(** The indented inline-code line of the sections 2 and 3. *)
Definition code_line (s : pystr) : pystr := u8 "   `" ++ s ++ u8 "`" ++ nl.

Definition mirror_title : pystr :=
  nl ++ u8 "3️⃣ *Angka Cermin (Mirror) dari Top Digit:*" ++ nl.

Definition pairs_title : pystr :=
  nl ++ u8 "4️⃣ *Top 5 Pasangan Angka Ikut Terkuat:*" ++ nl.

(** [pair[0]] and [pair[1]] are one-character strings. *)
Definition pair_line (pair : N * N) (freq : nat) : pystr :=
  u8 "   - Pasangan `(" ++ [pair.1] ++ u8 ", " ++ [pair.2] ++ u8 ")`: muncul bersama "
     ++ py_str_nat freq ++ u8 " kali" ++ nl.

Definition disclaimer : pystr :=
  nl ++ nl ++
  u8 "_Disclaimer: Analisis ini berdasarkan data historis dan hanya untuk referensi. Gunakan dengan bijak._".

(** ** The function *)

(** Section 4, appended only when the pair counter is not empty. *)
Definition pairs_section (pair_counter : list ((N * N) * nat)) : pystr :=
  match pair_counter with
  | [] => []
  | _ => pairs_title ++ concat ((λ p, pair_line p.1 p.2) <$> most_common 5 pair_counter)
  end.

Definition generate_bbfs_prediktif (history : list pystr) (top_n : Z) : option pystr :=
  match history with
  | [] => Some msg_kosong
  | _ =>
    let st := analisis_digit history in
    match semua_digit st with
    | [] => Some msg_tidak_ada_digit
    | semua =>
      let frekuensi := counter_of semua in
      let angka_teratas := most_common top_n frekuensi in
      let top_digits_set := (λ d, py_str_Z d.1) <$> angka_teratas in
      let pesan := header_line (length history) ++ top_title (length angka_teratas)
        ++ concat ((λ d, digit_line d.1 d.2) <$> angka_teratas)
        ++ bbfs_title (length top_digits_set) ++ code_line (concat top_digits_set)
        ++ mirror_title in
      mirror_digits ← mapM (λ d, py_str_Z <$> mirror_number (PyStr d)) top_digits_set;
      Some (pesan ++ code_line (concat mirror_digits)
            ++ pairs_section (hitung_angka_ikut history) ++ disclaimer)
    end
  end.

(** ** Views of the result used by the theorems *)

(** The ranked digits, [angka_teratas] without the counts. *)
Definition bbfs_digits (history : list pystr) (top_n : Z) : list Z :=
  (most_common top_n (counter_of (semua_digit (analisis_digit history)))).*1.

(** One character per digit. *)
Definition digit_chars (ds : list Z) : pystr := (λ d, digit_char (Z.to_nat d)) <$> ds.

(** ** Lemmas *)

Lemma py_str_Z_digit d : (0 ≤ d ≤ 9)%Z → py_str_Z d = [digit_char (Z.to_nat d)].
Proof.
  intros Hd. assert (d = 0 ∨ d = 1 ∨ d = 2 ∨ d = 3 ∨ d = 4 ∨ d = 5 ∨ d = 6 ∨ d = 7
                     ∨ d = 8 ∨ d = 9)%Z as Hc by lia.
  destruct_or! Hc; subst d; reflexivity.
Qed.

Lemma counter_of_keys_bound (l : list Z) :
  Forall (λ v, 0 ≤ v ≤ 9)%Z l → Forall (λ p, 0 ≤ p.1 ≤ 9)%Z (counter_of l).
Proof.
  rewrite !Forall_forall. intros Hl [k n] Hk. apply elem_of_counter_of in Hk as [Hk _].
  by apply Hl.
Qed.

Lemma bbfs_digits_bound history top_n :
  Forall (λ d, 0 ≤ d ≤ 9)%Z (bbfs_digits history top_n).
Proof.
  unfold bbfs_digits, most_common. apply Forall_fmap.
  apply Forall_take. rewrite sort_desc_perm.
  apply counter_of_keys_bound, analisis_digit_bounds.
Qed.

Lemma concat_str_digits {A} (f : A → Z) (L : list A) :
  Forall (λ x, 0 ≤ f x ≤ 9)%Z L → concat ((λ x, py_str_Z (f x)) <$> L) = digit_chars (f <$> L).
Proof.
  induction 1 as [|x L Hx _ IH]; [done|]. cbn. by rewrite py_str_Z_digit, IH.
Qed.

Lemma mirror_strings_mapM (L : list (Z * nat)) :
  mapM (λ d, py_str_Z <$> mirror_number (PyStr d)) ((λ d, py_str_Z d.1) <$> L) =
  Some ((λ d, py_str_Z (mirror_get d.1)) <$> L).
Proof.
  induction L as [|d L IH]; [done|]. cbn [fmap list_fmap mapM].
  by rewrite mirror_number_str, IH.
Qed.

(** The report of a history that has digits: it is produced without an
    exception; its section 2 writes the recommended digits one character
    each, its section 3 the mirror of each of them in the same order; the
    text ends with the pair section and the disclaimer. *)
Theorem generate_digits (h : list pystr) n :
  h ≠ [] → semua_digit (analisis_digit h) ≠ [] →
  ∃ pre, generate_bbfs_prediktif h n =
    Some (pre ++ code_line (digit_chars (bbfs_digits h n)) ++ mirror_title
          ++ code_line (digit_chars (mirror_get <$> bbfs_digits h n))
          ++ pairs_section (hitung_angka_ikut h) ++ disclaimer).
Proof.
  intros Hh Hs. pose proof (bbfs_digits_bound h n) as Hb. unfold bbfs_digits in Hb |- *.
  destruct h as [|t h']; [done|]. cbn [generate_bbfs_prediktif].
  destruct (semua_digit (analisis_digit (t :: h'))) as [|z zs] eqn:E; [done|].
  rewrite mirror_strings_mapM. cbn [mbind option_bind].
  set (L := most_common n (counter_of (z :: zs))) in *.
  apply Forall_fmap in Hb.
  rewrite (concat_str_digits fst) by done.
  rewrite (concat_str_digits (λ x, mirror_get x.1)).
  2:{ eapply Forall_impl; [exact Hb|]. intros x Hx. apply mirror_get_digit_moves, Hx. }
  rewrite <- (list_fmap_compose fst mirror_get).
  eexists (header_line (length (t :: h')) ++ top_title (length L)
          ++ concat ((λ d, digit_line d.1 d.2) <$> L)
          ++ bbfs_title (length ((λ d, py_str_Z d.1) <$> L))).
  apply (f_equal Some). rewrite <- !app_assoc. reflexivity.
Qed.
End Report.

Section ReportTheory.
Context `{PyUnicode}.

Lemma bbfs_digits_counter h n d :
  d ∈ bbfs_digits h n →
  (d, occ d (semua_digit (analisis_digit h))) ∈ most_common n (counter_of (semua_digit (analisis_digit h))).
Proof.
  unfold bbfs_digits. intros ([d' c] & -> & Hin)%list_elem_of_fmap.
  pose proof Hin as Hin'. unfold most_common in Hin'.
  apply elem_of_take in Hin' as (i & Hi & _). apply list_elem_of_lookup_2 in Hi.
  rewrite sort_desc_perm in Hi. apply elem_of_counter_of in Hi as [_ ->]. done.
Qed.

(** C2: The recommended digits are the most frequent ones: a digit left out
    occurs no more often than any recommended digit. *)
Theorem bbfs_top (h : list pystr) n d e :
  d ∈ bbfs_digits h n → e ∉ bbfs_digits h n →
  occ e (semua_digit (analisis_digit h)) ≤ occ d (semua_digit (analisis_digit h)).
Proof.
  set (S := semua_digit (analisis_digit h)). intros Hd He.
  destruct (decide (e ∈ S)) as [HeS|HeS]; [|rewrite occ_zero by done; lia].
  apply bbfs_digits_counter in Hd.
  destruct (most_common_top n (counter_of S)) as (_ & _ & (rest & Hperm & Htop) & _).
  assert ((e, occ e S) ∈ rest) as Her.
  { assert ((e, occ e S) ∈ most_common n (counter_of S) ++ rest) as Hin.
    { rewrite Hperm. by apply elem_of_counter_of. }
    apply elem_of_app in Hin as [Hin|]; [|done]. exfalso. apply He.
    unfold bbfs_digits. apply list_elem_of_fmap. by exists (e, occ e S). }
  exact (Htop _ _ Hd Her).
Qed.

(** C9: The recommended digits are distinct digits, and there are
    [min(top_n, number of distinct digits)] of them: none when
    [top_n <= 0], all of them when [top_n] exceeds their number. *)
Theorem bbfs_shape (h : list pystr) n :
  NoDup (bbfs_digits h n) ∧
  length (bbfs_digits h n) =
    Nat.min (Z.to_nat n) (length (first_occ (semua_digit (analisis_digit h)))) ∧
  Forall (λ d, 0 ≤ d ≤ 9)%Z (bbfs_digits h n).
Proof.
  set (S := semua_digit (analisis_digit h)).
  split_and!; [| |apply bbfs_digits_bound].
  - unfold bbfs_digits, most_common. rewrite fmap_take.
    eapply sublist_NoDup; [|apply sublist_take].
    rewrite sort_desc_perm. apply NoDup_counter_of_keys.
  - unfold bbfs_digits. fold S. rewrite length_fmap.
    destruct (most_common_top n (counter_of S)) as (-> & _).
    by rewrite <- counter_of_keys, length_fmap.
Qed.

(** C10: Ties go to the digit seen first: when two digits occur equally often
    and [d] first appears before [e], recommending [e] means recommending
    [d]. *)
Theorem bbfs_ties (h : list pystr) n d e f1 f2 f3 :
  first_occ (semua_digit (analisis_digit h)) = f1 ++ d :: f2 ++ e :: f3 →
  occ d (semua_digit (analisis_digit h)) = occ e (semua_digit (analisis_digit h)) →
  e ∈ bbfs_digits h n → d ∈ bbfs_digits h n.
Proof.
  set (S := semua_digit (analisis_digit h)). intros Hfo Hde He.
  apply bbfs_digits_counter in He.
  destruct (most_common_top n (counter_of S)) as (_ & _ & _ & Hpre).
  specialize (Hpre (occ e S)).
  set (F := λ k, (k, occ k S)).
  assert (with_count (occ e S) (counter_of S) =
          with_count (occ e S) (F <$> f1) ++ F d :: with_count (occ e S) (F <$> f2)
            ++ F e :: with_count (occ e S) (F <$> f3)) as HW.
  { rewrite counter_of_spec, Hfo. fold F. unfold with_count.
    by repeat (rewrite fmap_app || rewrite fmap_cons || rewrite filter_app
               || rewrite filter_cons_True by done). }
  assert ((d, occ d S) ∈ with_count (occ e S) (most_common n (counter_of S))) as Hd.
  { apply (prefix_earlier _ (with_count (occ e S) (F <$> f1)) (with_count (occ e S) (F <$> f2))
             (with_count (occ e S) (F <$> f3)) (F d) (F e)); [rewrite <- HW; exact Hpre| |].
    - rewrite <- HW. apply NoDup_filter. eapply NoDup_fmap_1.
      apply NoDup_counter_of_keys.
    - apply list_elem_of_filter. split; [done|exact He]. }
  apply list_elem_of_filter in Hd as [_ Hd].
  unfold bbfs_digits. apply list_elem_of_fmap. by exists (d, occ d S).
Qed.

Lemma canned_lengths :
  length msg_kosong < length disclaimer ∧ length msg_tidak_ada_digit < length disclaimer ∧
  msg_kosong ≠ msg_tidak_ada_digit.
Proof. vm_compute. split_and!; [lia|lia|discriminate]. Qed.

Lemma semua_digit_nil_iff (h : list pystr) :
  semua_digit (analisis_digit h) = [] ↔ Forall (Forall (λ d, uc_decimal d = None)) h.
Proof.
  rewrite analisis_digit_semua. induction h as [|a h IH]; cbn; [split; by constructor|].
  rewrite app_nil, IH, Forall_cons. apply and_iff_compat_r. clear IH.
  induction a as [|d a IHa]; cbn; [split; by constructor|].
  rewrite Forall_cons, <- IHa. destruct (uc_decimal d); cbn.
  - split; [done|]. by intros [? _].
  - split; [by split|]. by intros [_ ?].
Qed.

(** C13: The two canned answers and when they are given: the empty-history
    message exactly for an empty history (whatever [top_n] is), the
    no-digit message exactly for a non-empty history in which no
    character is a decimal digit. *)
Theorem generate_canned (h : list pystr) n :
  (generate_bbfs_prediktif h n = Some msg_kosong ↔ h = []) ∧
  (generate_bbfs_prediktif h n = Some msg_tidak_ada_digit ↔
     h ≠ [] ∧ Forall (Forall (λ d, uc_decimal d = None)) h).
Proof.
  destruct canned_lengths as (Hk & Ht & Hne). rewrite <- semua_digit_nil_iff.
  destruct (decide (h = [])) as [->|Hh].
  { cbn [generate_bbfs_prediktif]. split; [by split|].
    split; [intros Heq%(inj Some); exfalso; exact (Hne Heq)|]. by intros [[] _]. }
  destruct (decide (semua_digit (analisis_digit h) = [])) as [Hs|Hs].
  - assert (generate_bbfs_prediktif h n = Some msg_tidak_ada_digit) as ->.
    { destruct h as [|t h']; [contradiction|]. cbn [generate_bbfs_prediktif]. by rewrite Hs. }
    split; split.
    + intros Heq%(inj Some). exfalso. exact (Hne (eq_sym Heq)).
    + intros ->. contradiction.
    + intros _. by split.
    + intros _. reflexivity.
  - destruct (generate_digits h n Hh Hs) as [pre ->].
    assert (∀ m, length m < length disclaimer →
              Some (pre ++ code_line (digit_chars (bbfs_digits h n)) ++ mirror_title
                    ++ code_line (digit_chars (mirror_get <$> bbfs_digits h n))
                    ++ pairs_section (hitung_angka_ikut h) ++ disclaimer) ≠ Some m) as Hlen.
    { intros m Hm Heq%(inj Some). apply (f_equal length) in Heq.
      rewrite !length_app in Heq. lia. }
    split; split.
    + intros Heq. by destruct (Hlen _ Hk).
    + intros ->. contradiction.
    + intros Heq. by destruct (Hlen _ Ht).
    + intros [_ ?]. contradiction.
Qed.

(** [generate_bbfs_prediktif] never raises and always returns a non-empty
    text. *)
Theorem generate_total (h : list pystr) n :
  ∃ s, generate_bbfs_prediktif h n = Some s ∧ s ≠ [].
Proof.
  destruct canned_lengths as (Hk & Ht & _).
  destruct (decide (h = [])) as [->|Hh].
  { eexists. split; [reflexivity|]. intros Hn. vm_compute in Hn. discriminate. }
  destruct (decide (semua_digit (analisis_digit h) = [])) as [Hs|Hs].
  - destruct h as [|t h']; [contradiction|]. cbn [generate_bbfs_prediktif]. rewrite Hs.
    eexists. split; [reflexivity|]. intros Hn. vm_compute in Hn. discriminate.
  - destruct (generate_digits h n Hh Hs) as [pre ->]. eexists. split; [reflexivity|].
    intros Hnil. apply (f_equal length) in Hnil. rewrite !length_app in Hnil. cbn [length] in Hnil. lia.
Qed.
(** C11: Sections 2 and 3 of a report: the recommended digits written one
    character each, and below them the mirror string, of the same length,
    whose [i]-th character is the mirror of the [i]-th recommended digit,
    never the digit itself. *)
Theorem report_bbfs_mirror (h : list pystr) n :
  h ≠ [] → semua_digit (analisis_digit h) ≠ [] →
  ∃ pre post s m,
    generate_bbfs_prediktif h n = Some (pre ++ code_line s ++ mirror_title ++ code_line m ++ post) ∧
    length s = length (bbfs_digits h n) ∧ length m = length s ∧
    ∀ i d, bbfs_digits h n !! i = Some d →
      s !! i = Some (digit_char (Z.to_nat d)) ∧
      m !! i = Some (digit_char (Z.to_nat (mirror_get d))) ∧ mirror_get d ≠ d.
Proof.
  intros Hh Hs. destruct (generate_digits h n Hh Hs) as [pre ->].
  eexists pre, _, _, _. split; [reflexivity|].
  unfold digit_chars. rewrite !length_fmap. split_and!; [done|done|].
  intros i d Hi. rewrite !list_lookup_fmap, Hi. split_and!; [done|done|].
  apply mirror_get_digit_moves.
  exact (Forall_lookup_1 _ _ _ _ (bbfs_digits_bound h n) Hi).
Qed.
(** C28: Specification section 8 says every report of a non-empty history ends
    with the disclaimer.  The code does so exactly when the history holds a
    decimal digit: the no-digit message comes without it. *)
Theorem report_disclaimer_iff (h : list pystr) n :
  h ≠ [] →
  ((∃ pre, generate_bbfs_prediktif h n = Some (pre ++ disclaimer)) ↔
   semua_digit (analisis_digit h) ≠ []).
Proof.
  intros Hh. destruct canned_lengths as (_ & Ht & _).
  destruct (decide (semua_digit (analisis_digit h) = [])) as [Hs|Hs].
  - assert (generate_bbfs_prediktif h n = Some msg_tidak_ada_digit) as ->.
    { destruct h as [|t h']; [contradiction|]. cbn [generate_bbfs_prediktif]. by rewrite Hs. }
    split; [|contradiction]. intros [pre Heq%(inj Some)].
    apply (f_equal length) in Heq. rewrite length_app in Heq. lia.
  - destruct (generate_digits h n Hh Hs) as [pre ->]. split; [done|]. intros _.
    eexists. f_equal. rewrite !app_assoc. reflexivity.
Qed.
End ReportTheory.

(** ** Concrete runs, with the Unicode table [ucd] *)

Lemma bbfs_top_witness :
  occ 2%Z (semua_digit (analisis_digit [u8 "112"])) ≤ occ 1%Z (semua_digit (analisis_digit [u8 "112"])).
Proof.
  apply (bbfs_top [u8 "112"] 1 1 2).
  - by_decide.
  - by_decide.
Defined.

Lemma bbfs_ties_witness : (1 ∈ bbfs_digits [u8 "12"] 2)%Z.
Proof.
  apply (bbfs_ties [u8 "12"] 2 1 2 [] [] []).
  - vm_compute. reflexivity.
  - vm_compute. reflexivity.
  - by_decide.
Defined.

Lemma report_bbfs_mirror_witness :
  ∃ pre post s m,
    generate_bbfs_prediktif [u8 "1223"] 2 = Some (pre ++ code_line s ++ mirror_title ++ code_line m ++ post) ∧
    length s = length (bbfs_digits [u8 "1223"] 2) ∧ length m = length s ∧
    ∀ i d, bbfs_digits [u8 "1223"] 2 !! i = Some d →
      s !! i = Some (digit_char (Z.to_nat d)) ∧
      m !! i = Some (digit_char (Z.to_nat (mirror_get d))) ∧ mirror_get d ≠ d.
Proof. apply report_bbfs_mirror; vm_compute; discriminate. Defined.


Lemma report_disclaimer_iff_witness :
  (∃ pre, generate_bbfs_prediktif [u8 "a1"] 7 = Some (pre ++ disclaimer)) ↔
  semua_digit (analisis_digit [u8 "a1"]) ≠ [].
Proof. apply report_disclaimer_iff. discriminate. Defined.
