(* ===== verification/Bot.v ===== *)
(** * The Telegram handlers (main.py lines 119-223)

    Each handler reacts to one update by sending replies and, for
    [/analisis], by writing, reading and deleting the temporary file
    [history_<id>.txt].  The effects are explicit: a [World] holds the file
    system (the [gmap] of [Loader]) and the log of what the bot did, replies
    sent with their parse mode and exceptions raised.  [analisis_command] is
    the whole handler run without interruption, which is what the library
    does by default (one update at a time); [Concurrency] splits it at its
    [await]s.  An update is one of the four kinds the library delivers to
    these handlers; the handlers read [update.message], which only a new
    message has.  Command recognition (the [bot_command] entity and its
    [@username]) and [context.args] belong to the library ([telegram.ext])
    and follow its documentation; the bot's username is a parameter. *)

From S2P Require Import Prelude PyStr Mirror PyCounter DigitAnalyzer PairCounter Report Loader.
Import (notations) Stdlib.Strings.String.

(** ** Data *)

Record Document := { doc_mime : pystr; doc_file : fs_entry }.

(** A message: its text, its document and, for a reply, the document of
    the message it answers ([Some None]: it answers a message without one). *)
Record Message := {
  msg_text : option pystr;
  msg_document : option Document;
  msg_reply_to : option (option Document)
}.

Record Update := { upd_user : Z; upd_message : Message }.

(** What Telegram sends: a new message, an edited one, or a (possibly
    edited) post of a channel the bot is in.  The handlers read
    [update.message], which only the first kind has; the others carry their
    message in [edited_message], [channel_post] or [edited_channel_post],
    which the library's filters look at through [effective_message]. *)
Inductive incoming :=
  | NewMessage (u : Update)
  | EditedMessage (u : Update)
  | ChannelPost (u : Update)
  | EditedChannelPost (u : Update).

(** The update with its [effective_message]. *)
Definition effective (x : incoming) : Update :=
  match x with
  | NewMessage u | EditedMessage u | ChannelPost u | EditedChannelPost u => u
  end.

(** [update.message]: present on new messages only. *)
Definition update_message (x : incoming) : option Update :=
  match x with NewMessage u => Some u | _ => None end.

Inductive parse_mode := NoMode | Markdown | Html.

Inductive py_exn := FileNotFoundError | AttributeError.

Inductive event :=
  | Sent (user : Z) (text : pystr) (mode : parse_mode)
  | Raised (user : Z) (e : py_exn).

#[export] Instance parse_mode_eq_dec : EqDecision parse_mode.
Proof. solve_decision. Defined.
#[export] Instance py_exn_eq_dec : EqDecision py_exn.
Proof. solve_decision. Defined.
#[export] Instance event_eq_dec : EqDecision event.
Proof. solve_decision. Defined.

Record World := { w_fs : gmap pystr fs_entry; w_log : list event }.

Inductive handler := HStart | HHelp | HAnalisis | HDocument | HText.

Section Bot.
Context `{PyUnicode}.

(** [user.mention_html()], a formatting function of the library, and the
    bot's user name, which [CommandHandler] compares with ["/cmd@name"]. *)
Variable mention_html : Z → pystr.
Variable bot_username : pystr.

(** ** Texts *)

Definition text_plain : pystr := u8 "text/plain".

Definition start_text (uid : Z) : pystr :=
  u8 "Halo " ++ mention_html uid ++ u8 "!" ++ nl ++ nl ++
  u8 "Selamat datang di Bot Analisis Angka." ++ nl ++
  u8 "Kirimkan saya file `.txt` yang berisi histori angka (satu angka per baris), lalu balas file tersebut dengan perintah `/analisis`." ++ nl ++ nl ++
  u8 "Gunakan perintah /help untuk melihat bantuan.".

Definition help_text : pystr :=
  u8 "💡 *Cara Penggunaan Bot:*" ++ nl ++ nl ++
  u8 "1. Siapkan data histori Anda dalam sebuah file teks (`.txt`). Pastikan setiap angka berada di baris baru." ++ nl ++ nl ++
  u8 "2. Kirim file `.txt` tersebut ke chat ini." ++ nl ++ nl ++
  u8 "3. *Balas (Reply)* pesan file yang baru Anda kirim dengan perintah `/analisis`." ++ nl ++ nl ++
  u8 "Anda juga bisa menambahkan jumlah digit yang ingin dianalisis, contoh: `/analisis 8` (untuk mendapatkan 8 digit teratas). Jika tidak diisi, defaultnya adalah 7 digit.".

Definition doc_ok_text : pystr :=
  u8 "✅ File `.txt` diterima. Sekarang, silakan *balas (reply)* pesan file ini dengan perintah `/analisis` untuk memulai.".

Definition doc_bad_text : pystr :=
  u8 "❌ Format file tidak didukung. Harap kirim file dengan format `.txt`.".

Definition wrong_command_text : pystr :=
  u8 "⚠️ *Perintah salah!* Harap jalankan perintah `/analisis` dengan cara *membalas (reply)* pesan file `.txt` yang berisi histori.".

Definition not_txt_text : pystr :=
  u8 "❌ Anda membalas pesan yang bukan file `.txt`. Harap balas file histori yang benar.".

Definition wait_text : pystr := u8 "⏳ Sedang memproses analisis, mohon tunggu sebentar...".

Definition unknown_text : pystr :=
  u8 "Saya tidak mengerti pesan itu. Coba kirim file `.txt` atau gunakan perintah /help.".

(** ** Commands and arguments (the library's [CommandHandler]) *)

(** [str.split()]: the words between runs of white space. *)
Fixpoint split_words_go (cur : pystr) (s : pystr) : list pystr :=
  match s with
  | [] => match cur with [] => [] | _ => [cur] end
  | c :: s' =>
      if uc_isspace c then (match cur with [] => [] | _ => [cur] end) ++ split_words_go [] s'
      else split_words_go (cur ++ [c]) s'
  end.

Definition split_words (s : pystr) : list pystr := split_words_go [] s.

(** The [bot_command] entity Telegram puts at the start of a text: ["/"],
    then command characters ([A-Za-z0-9_]), optionally ["@"] and a user
    name; the entity ends at the first character outside that syntax. *)
Definition is_command_char (c : N) : bool :=
  bool_decide (48 ≤ c ≤ 57 ∨ 65 ≤ c ≤ 90 ∨ 97 ≤ c ≤ 122 ∨ c = 95)%N.

Fixpoint take_command_chars (s : pystr) : pystr :=
  match s with
  | [] => []
  | c :: s' => if is_command_char c then c :: take_command_chars s' else []
  end.

Definition command_entity (text : pystr) : option (pystr * option pystr) :=
  match text with
  | 47%N :: r =>
      match take_command_chars r with
      | [] => None
      | name =>
          match drop (length name) r with
          | 64%N :: r' =>
              match take_command_chars r' with
              | [] => Some (name, None)
              | user => Some (name, Some user)
              end
          | _ => Some (name, None)
          end
      end
  | _ => None
  end.

Definition ascii_lower (c : N) : N := if decide (65 ≤ c ≤ 90)%N then (c + 32)%N else c.

(** [CommandHandler]: the command of the entity, in lower case, when it
    names no bot or this bot ([text[1:length].split('@')], the bot's user
    name appended when absent, both compared in lower case). *)
Definition command_of (text : pystr) : option pystr :=
  match command_entity text with
  | Some (name, None) => Some (ascii_lower <$> name)
  | Some (name, Some user) =>
      if decide (ascii_lower <$> user = ascii_lower <$> bot_username) then Some (ascii_lower <$> name)
      else None
  | None => None
  end.

(** [context.args]: the words after the command. *)
Definition command_args (m : Message) : list pystr :=
  match msg_text m with Some t => drop 1 (split_words t) | None => [] end.

(** ** The handlers *)

Definition reply (w : World) (uid : Z) (text : pystr) (mode : parse_mode) : World :=
  {| w_fs := w_fs w; w_log := w_log w ++ [Sent uid text mode] |}.

Definition raise (w : World) (uid : Z) (e : py_exn) : World :=
  {| w_fs := w_fs w; w_log := w_log w ++ [Raised uid e] |}.

Definition start (w : World) (u : Update) : World :=
  reply w (upd_user u) (start_text (upd_user u)) Html.

Definition help_command (w : World) (u : Update) : World :=
  reply w (upd_user u) help_text Markdown.

Definition handle_document (w : World) (u : Update) (doc : Document) : World :=
  if decide (doc_mime doc = text_plain) then reply w (upd_user u) doc_ok_text NoMode
  else reply w (upd_user u) doc_bad_text NoMode.

Definition handle_text (w : World) (u : Update) : World :=
  reply w (upd_user u) unknown_text NoMode.

(** [int(context.args[0]) if context.args else 7], [ValueError] giving [7]. *)
Definition parse_top_n (args : list pystr) : Z :=
  match args with
  | [] => 7
  | a :: _ => default 7%Z (py_int a)
  end.

(** [f"history_{update.effective_user.id}.txt"]. *)
Definition file_path (uid : Z) : pystr := u8 "history_" ++ py_str_Z uid ++ u8 ".txt".

(** [download_to_drive] writes the file; [os.remove] deletes it or raises. *)
Definition download (w : World) (path : pystr) (f : fs_entry) : World :=
  {| w_fs := <[path := f]> (w_fs w); w_log := w_log w |}.

Definition os_remove (w : World) (uid : Z) (path : pystr) : World :=
  match w_fs w !! path with
  | Some _ => {| w_fs := delete path (w_fs w); w_log := w_log w |}
  | None => raise w uid FileNotFoundError
  end.

(** The part of [analisis_command] after the download: read, analyse,
    reply, remove. *)
Definition analyse_and_reply (w : World) (uid : Z) (top_n : Z) : World :=
  let path := file_path uid in
  let history := baca_history_dari_file (w_fs w) path in
  match generate_bbfs_prediktif history top_n with
  | Some hasil => os_remove (reply w uid hasil Markdown) uid path
  | None => w
  end.

Definition analisis_command (w : World) (u : Update) : World :=
  let uid := upd_user u in
  match msg_reply_to (upd_message u) with
  | None | Some None => reply w uid wrong_command_text Markdown
  | Some (Some doc) =>
      if decide (doc_mime doc ≠ text_plain) then reply w uid not_txt_text NoMode
      else
        let top_n := parse_top_n (command_args (upd_message u)) in
        let w1 := reply w uid wait_text NoMode in
        let w2 := download w1 (file_path uid) (doc_file doc) in
        analyse_and_reply w2 uid top_n
  end.

(** ** Registration and dispatch ([main]) *)

(** The handlers in the order [main] adds them. *)
Definition handlers : list handler := [HStart; HHelp; HAnalisis; HDocument; HText].

(** The filters on the effective message: the three commands, a document
    ([filters.Document.ALL]), a text without command ([filters.TEXT &
    ~filters.COMMAND]). *)
Definition handler_accepts (h : handler) (m : Message) : bool :=
  match h, msg_text m with
  | HStart, Some t => bool_decide (command_of t = Some (u8 "start"))
  | HHelp, Some t => bool_decide (command_of t = Some (u8 "help"))
  | HAnalisis, Some t => bool_decide (command_of t = Some (u8 "analisis"))
  | HDocument, _ => bool_decide (is_Some (msg_document m))
  | HText, Some t => bool_decide (command_entity t = None)
  | _, None => false
  end.

(** [CommandHandler] takes new and edited messages
    ([filters.UpdateType.MESSAGES]); [MessageHandler] every update with an
    effective message. *)
Definition kind_accepts (h : handler) (x : incoming) : bool :=
  match h, x with
  | (HStart | HHelp | HAnalisis), (ChannelPost _ | EditedChannelPost _) => false
  | _, _ => true
  end.

(** The first registered handler that accepts the update handles it. *)
Fixpoint first_accepting (hs : list handler) (x : incoming) : option handler :=
  match hs with
  | [] => None
  | h :: hs' =>
      if kind_accepts h x && handler_accepts h (upd_message (effective x)) then Some h
      else first_accepting hs' x
  end.

Definition dispatch (x : incoming) : option handler := first_accepting handlers x.

(** The handler's body, called with [update.message] present. *)
Definition run_handler (h : handler) (w : World) (u : Update) : World :=
  match h with
  | HStart => start w u
  | HHelp => help_command w u
  | HAnalisis => analisis_command w u
  | HDocument =>
      match msg_document (upd_message u) with
      | Some doc => handle_document w u doc
      | None => w
      end
  | HText => handle_text w u
  end.

(** Every handler starts by reading [update.message]; without one it
    raises [AttributeError], which the library logs before going on. *)
Definition handle_update (w : World) (x : incoming) : World :=
  match dispatch x with
  | None => w
  | Some h =>
      match update_message x with
      | Some u => run_handler h w u
      | None => raise w (upd_user (effective x)) AttributeError
      end
  end.

(** [application.run_polling()] with the library's default of one update
    at a time. *)
Definition run_polling (w : World) (xs : list incoming) : World := foldl handle_update w xs.

Definition token_placeholder : pystr := u8 "GANTI_DENGAN_TOKEN_BOT_ANDA".

Definition missing_token_text : pystr :=
  u8 "!!! KESALAHAN: Token bot belum diisi. Silakan edit file dan isi variabel TELEGRAM_BOT_TOKEN.".

Definition running_text : pystr := u8 "Bot sedang berjalan... Tekan Ctrl+C untuk berhenti.".

(** How [main] ends: after the placeholder message, with the exception of
    [build()], or polling with the handlers; [us] are the updates received
    until the bot is stopped. *)
Inductive main_outcome :=
  | TokenNotSet
  | InvalidToken
  | Polling (hs : list handler) (w : World).

(** [main]: the placeholder check, then [Application.builder().token(...)
    .build()], which raises on a missing or empty token, then the handlers
    and [run_polling].  The first component is what [print] writes. *)
Definition bot_main (token : option pystr) (w : World) (us : list incoming) : list pystr * main_outcome :=
  if decide (token = Some token_placeholder) then ([missing_token_text], TokenNotSet)
  else match token with
       | None | Some [] => ([], InvalidToken)
       | Some _ => ([running_text], Polling handlers (run_polling w us))
       end.
End Bot.

(** [str_decide] settles [decide] on equalities of string literals. *)
Ltac str_decide :=
  repeat first [rewrite decide_True by reflexivity
               | rewrite decide_False by (vm_compute; congruence)].

Section BotTheory.
Context `{PyUnicode}.
Variable mention_html : Z → pystr.
Variable bot_username : pystr.

(** What the loader returns for a file just written at its path. *)
Definition load_entry (f : fs_entry) : list pystr :=
  match f with
  | Readable text => clean_lines (py_readlines text)
  | Unreadable => []
  end.

Lemma baca_download (fs : gmap pystr fs_entry) p f :
  baca_history_dari_file (<[p := f]> fs) p = load_entry f.
Proof.
  unfold baca_history_dari_file, open_read. rewrite lookup_insert_eq. by destruct f.
Qed.

Lemma file_path_inj u1 u2 : file_path u1 = file_path u2 → u1 = u2.
Proof.
  unfold file_path. intros Heq%app_inv_head%app_inv_tail.
  apply (f_equal py_int) in Heq. rewrite !py_int_str_Z in Heq. congruence.
Qed.

(** The valid path of [analisis_command], once the report is known. *)
Lemma analisis_command_report w u doc hasil :
  msg_reply_to (upd_message u) = Some (Some doc) → doc_mime doc = text_plain →
  generate_bbfs_prediktif (load_entry (doc_file doc)) (parse_top_n (command_args (upd_message u))) = Some hasil →
  analisis_command w u =
    {| w_fs := delete (file_path (upd_user u)) (w_fs w);
       w_log := w_log w ++ [Sent (upd_user u) wait_text NoMode; Sent (upd_user u) hasil Markdown] |}.
Proof.
  intros Hr Hm Hg.
  unfold analisis_command. rewrite Hr, decide_False by tauto.
  unfold analyse_and_reply, download, os_remove, reply. cbn [w_fs w_log].
  rewrite baca_download, Hg. cbn [w_fs w_log]. rewrite lookup_insert_eq.
  by rewrite delete_insert_eq, <- !app_assoc.
Qed.

(** C1: A valid [/analisis]: the bot answers with the waiting message and then
    with the report of the replied-to file, for the [top_n] of the
    command's first argument; the temporary file is gone afterwards (a file
    of that name that existed before is gone too). *)
Theorem analisis_command_valid w u doc :
  msg_reply_to (upd_message u) = Some (Some doc) → doc_mime doc = text_plain →
  ∃ hasil,
    generate_bbfs_prediktif (load_entry (doc_file doc))
      (parse_top_n (command_args (upd_message u))) = Some hasil ∧
    analisis_command w u =
      {| w_fs := delete (file_path (upd_user u)) (w_fs w);
         w_log := w_log w ++ [Sent (upd_user u) wait_text NoMode; Sent (upd_user u) hasil Markdown] |}.
Proof.
  intros Hr Hm.
  destruct (generate_total (load_entry (doc_file doc)) (parse_top_n (command_args (upd_message u))))
    as (hasil & Hg & _).
  exists hasil. split; [done|]. by apply (analisis_command_report _ _ doc).
Qed.

(** C14: The two guards of [analisis_command]: a command that does not answer a
    message with a document gets the usage warning, one that answers a
    document that is not [text/plain] gets the wrong-type message; in both
    cases the file system is untouched and nothing else is sent. *)
Theorem analisis_command_guards w u :
  (∀ r, msg_reply_to (upd_message u) = r → (r = None ∨ r = Some None) →
     analisis_command w u = reply w (upd_user u) wrong_command_text Markdown) ∧
  (∀ doc, msg_reply_to (upd_message u) = Some (Some doc) → doc_mime doc ≠ text_plain →
     analisis_command w u = reply w (upd_user u) not_txt_text NoMode).
Proof.
  unfold analisis_command. split.
  - intros r -> [-> | ->]; reflexivity.
  - intros doc -> Hm. by rewrite decide_True.
Qed.

(** C15: [top_n]: [7] without an argument, and the integer written as the first
    argument otherwise, whatever its sign: [/analisis -3] asks for [-3]. *)
Theorem parse_top_n_spec :
  parse_top_n [] = 7%Z ∧
  (∀ z rest, parse_top_n (py_str_Z z :: rest) = z) ∧
  (∀ a rest, py_int a = None → parse_top_n (a :: rest) = 7%Z).
Proof.
  split_and!; [done| |].
  - intros z rest. cbn. by rewrite py_int_str_Z.
  - intros a rest Ha. cbn. by rewrite Ha.
Qed.

Lemma dispatch_text x t :
  kind_accepts HStart x = true → msg_text (upd_message (effective x)) = Some t →
  dispatch bot_username x =
    if decide (command_of bot_username t = Some (u8 "start")) then Some HStart
    else if decide (command_of bot_username t = Some (u8 "help")) then Some HHelp
    else if decide (command_of bot_username t = Some (u8 "analisis")) then Some HAnalisis
    else if decide (is_Some (msg_document (upd_message (effective x)))) then Some HDocument
    else if decide (command_entity t = None) then Some HText else None.
Proof.
  intros Hk Ht. unfold dispatch, first_accepting, handlers, handler_accepts.
  destruct x; cbn in Hk; try discriminate; cbn [kind_accepts andb effective] in *; rewrite Ht;
    repeat (case_bool_decide || case_decide); naive_solver.
Qed.

(** C27: The handler chain of [main], for a new message: [/analisis],
    [/start] and [/help] (alone or addressed to this bot) reach their
    handlers, a document without text reaches [handle_document], a text
    without a command entity reaches [handle_text], and a command that is
    none of these or is addressed to another bot gets no answer.  An
    edited message or a channel post that a filter accepts makes the
    handler raise [AttributeError] on [update.message]. *)
Theorem handle_update_cases w u :
  (∀ t, msg_text (upd_message u) = Some t → command_of bot_username t = Some (u8 "analisis") →
     handle_update mention_html bot_username w (NewMessage u) = analisis_command w u) ∧
  (∀ t, msg_text (upd_message u) = Some t → command_of bot_username t = Some (u8 "start") →
     handle_update mention_html bot_username w (NewMessage u) = start mention_html w u) ∧
  (∀ t, msg_text (upd_message u) = Some t → command_of bot_username t = Some (u8 "help") →
     handle_update mention_html bot_username w (NewMessage u) = help_command w u) ∧
  (∀ t, msg_text (upd_message u) = Some t → command_entity t = None →
     msg_document (upd_message u) = None →
     handle_update mention_html bot_username w (NewMessage u) = handle_text w u) ∧
  (∀ doc, msg_text (upd_message u) = None → msg_document (upd_message u) = Some doc →
     handle_update mention_html bot_username w (NewMessage u) = handle_document w u doc) ∧
  (∀ t, msg_text (upd_message u) = Some t → is_Some (command_entity t) →
     command_of bot_username t ∉ [Some (u8 "start"); Some (u8 "help"); Some (u8 "analisis")] →
     msg_document (upd_message u) = None →
     handle_update mention_html bot_username w (NewMessage u) = w) ∧
  (∀ x h, update_message x = None → dispatch bot_username x = Some h →
     handle_update mention_html bot_username w x = raise w (upd_user (effective x)) AttributeError).
Proof.
  unfold handle_update. split_and!.
  1-3: intros t Ht Hc; rewrite (dispatch_text (NewMessage u) t eq_refl Ht), Hc; by str_decide.
  - intros t Ht Hc Hd. rewrite (dispatch_text (NewMessage u) t eq_refl Ht). cbn [effective].
    assert (command_of bot_username t = None) as Hn by (unfold command_of; by rewrite Hc).
    rewrite Hd, Hn. repeat case_decide; simplify_eq/=; done.
  - intros doc Ht Hd. unfold dispatch, first_accepting, handlers, handler_accepts.
    cbn [effective kind_accepts andb]. rewrite Ht, Hd, bool_decide_true by done.
    cbn [update_message run_handler]. by rewrite Hd.
  - intros t Ht [e He] Hn Hd. rewrite (dispatch_text (NewMessage u) t eq_refl Ht). cbn [effective].
    rewrite Hd, He. repeat case_decide; simplify_eq/=; try done; exfalso; apply Hn;
      match goal with Hc : command_of _ _ = _ |- _ => rewrite Hc end; set_solver.
  - intros x h Hx Hd. by rewrite Hd, Hx.
Qed.

(** ** Sequential processing *)

Definition is_sent (e : event) : Prop := ∃ uid text mode, e = Sent uid text mode.

(** What the program may log while processing updates one at a time: a
    reply sent, or the [AttributeError] of a handler given an update
    without [update.message]. *)
Definition allowed (e : event) : Prop := is_sent e ∨ ∃ uid, e = Raised uid AttributeError.

(** What a run may do to the world: log events satisfying [P], and change
    no file but delete temporary ones. *)
Definition bot_effect (P : event → Prop) (w w' : World) : Prop :=
  (∃ sent, w_log w' = w_log w ++ sent ∧ Forall P sent) ∧
  ∀ p, w_fs w' !! p = w_fs w !! p ∨ (w_fs w' !! p = None ∧ ∃ uid, p = file_path uid).

Lemma bot_effect_refl P w : bot_effect P w w.
Proof. split; [exists []; by rewrite app_nil_r|]. by left. Qed.

Lemma bot_effect_trans P w1 w2 w3 : bot_effect P w1 w2 → bot_effect P w2 w3 → bot_effect P w1 w3.
Proof.
  intros [(s1 & H1 & F1) P1] [(s2 & H2 & F2) P2]. split.
  - exists (s1 ++ s2). rewrite H2, H1, app_assoc. split; [done|]. by apply Forall_app.
  - intros p. destruct (P2 p) as [->|[? ?]]; [done|]. by right.
Qed.

Lemma bot_effect_mono (P Q : event → Prop) w w' :
  (∀ e, P e → Q e) → bot_effect P w w' → bot_effect Q w w'.
Proof. intros HPQ [(s & Hs & F) Hp]. split; [|done]. exists s. split; [done|]. by eapply Forall_impl. Qed.

Lemma bot_effect_reply w uid text mode : bot_effect is_sent w (reply w uid text mode).
Proof.
  split; [|by left]. eexists. split; [done|]. repeat constructor. by do 3 eexists.
Qed.

#[local] Hint Resolve bot_effect_refl bot_effect_reply : bbfs.

Lemma analisis_command_effect w u : bot_effect is_sent w (analisis_command w u).
Proof.
  unfold analisis_command.
  destruct (msg_reply_to (upd_message u)) as [[doc|]|]; auto with bbfs.
  case_decide; auto with bbfs.
  destruct (generate_total (baca_history_dari_file
     (w_fs (download (reply w (upd_user u) wait_text NoMode) (file_path (upd_user u)) (doc_file doc)))
     (file_path (upd_user u))) (parse_top_n (command_args (upd_message u)))) as (hasil & Hg & _).
  unfold analyse_and_reply. rewrite Hg. unfold os_remove, reply, download. cbn [w_fs w_log].
  rewrite lookup_insert_eq. split.
  - eexists. rewrite <- app_assoc. split; [done|]. repeat constructor; by do 3 eexists.
  - intros p. cbn [w_fs]. destruct (decide (p = file_path (upd_user u))) as [->|Hp].
    + right. rewrite lookup_delete_eq. eauto.
    + left. by rewrite lookup_delete_ne, lookup_insert_ne by congruence.
Qed.

Lemma run_handler_effect h w u : bot_effect is_sent w (run_handler mention_html h w u).
Proof.
  unfold run_handler, start, help_command, handle_text, handle_document.
  destruct h; auto using analisis_command_effect with bbfs.
  destruct (msg_document (upd_message u)); [case_decide|]; auto with bbfs.
Qed.

Lemma handle_update_effect w x : bot_effect allowed w (handle_update mention_html bot_username w x).
Proof.
  unfold handle_update. destruct (dispatch bot_username x) as [h|]; [|apply bot_effect_refl].
  destruct (update_message x) as [u|].
  - eapply bot_effect_mono, run_handler_effect. intros e ?. by left.
  - split; [|by left]. eexists. split; [done|]. apply Forall_singleton. right. by eexists.
Qed.

Lemma handle_update_effect_new w x :
  is_Some (update_message x) → bot_effect is_sent w (handle_update mention_html bot_username w x).
Proof.
  intros [u Hu]. unfold handle_update. rewrite Hu.
  destruct (dispatch bot_username x); [apply run_handler_effect|apply bot_effect_refl].
Qed.

Lemma run_polling_effect w xs : bot_effect allowed w (run_polling mention_html bot_username w xs).
Proof.
  unfold run_polling. revert w. induction xs as [|x xs IH]; intros w; cbn [foldl].
  - apply bot_effect_refl.
  - eapply bot_effect_trans; [apply handle_update_effect|apply IH].
Qed.

Lemma run_polling_effect_new w xs :
  Forall (λ x, is_Some (update_message x)) xs →
  bot_effect is_sent w (run_polling mention_html bot_username w xs).
Proof.
  intros Hxs. revert w. induction Hxs as [|x xs Hx _ IH]; intros w; cbn [foldl].
  - apply bot_effect_refl.
  - eapply bot_effect_trans; [by apply handle_update_effect_new|apply IH].
Qed.

(** C4: Processed one at a time, as the library does by default, a sequence
    of updates never raises [FileNotFoundError] and leaves no temporary
    file behind: every file is as before, or is a [history_<id>.txt] that
    is now gone.  The only exception is the [AttributeError] of a handler
    given an edited message or a channel post; a sequence of new messages
    raises nothing. *)
Theorem run_polling_safe w xs :
  (∃ sent, w_log (run_polling mention_html bot_username w xs) = w_log w ++ sent ∧
     Forall (λ e, is_sent e ∨ ∃ uid, e = Raised uid AttributeError) sent ∧
     (Forall (λ x, is_Some (update_message x)) xs → Forall is_sent sent)) ∧
  ∀ p, w_fs (run_polling mention_html bot_username w xs) !! p = w_fs w !! p ∨
       (w_fs (run_polling mention_html bot_username w xs) !! p = None ∧ ∃ uid, p = file_path uid).
Proof.
  destruct (run_polling_effect w xs) as [(sent & Hs & Hall) Hfs]. split; [|done].
  exists sent. split_and!; [done|done|]. intros Hnew.
  destruct (run_polling_effect_new w xs Hnew) as [(sent' & Hs' & Hsent) _].
  rewrite Hs in Hs'. apply app_inv_head in Hs'. by subst.
Qed.

(** C26: [main]: the placeholder token prints the message and stops; a
    missing ([TELEGRAM_BOT_TOKEN] unset) or empty token is not caught by
    that check and makes the library's [build()] raise; any other token
    starts polling with the five handlers in their order. *)
Theorem bot_main_outcomes w us :
  bot_main mention_html bot_username (Some token_placeholder) w us = ([missing_token_text], TokenNotSet) ∧
  bot_main mention_html bot_username None w us = ([], InvalidToken) ∧
  bot_main mention_html bot_username (Some []) w us = ([], InvalidToken) ∧
  ∀ t, t ≠ [] → t ≠ token_placeholder →
    bot_main mention_html bot_username (Some t) w us =
      ([running_text], Polling handlers (run_polling mention_html bot_username w us)).
Proof.
  unfold bot_main. split_and!.
  - by rewrite decide_True.
  - by rewrite decide_False.
  - rewrite decide_False; [done|]. by intros [=].
  - intros t Ht Hp. rewrite decide_False by congruence. by destruct t.
Qed.

(** C8: Loader, engine and handler together: when the replied-to document
    holds tokens one per line (LF or CRLF), [/analisis] answers with the
    report of exactly those tokens, in file order. *)
Theorem upload_and_analyse w u doc toks eol :
  msg_reply_to (upd_message u) = Some (Some doc) → doc_mime doc = text_plain →
  doc_file doc = Readable (write_lines toks eol) →
  Forall line_token toks → eol = [10%N] ∨ eol = [13%N; 10%N] →
  ∃ hasil,
    generate_bbfs_prediktif toks (parse_top_n (command_args (upd_message u))) = Some hasil ∧
    analisis_command w u =
      {| w_fs := delete (file_path (upd_user u)) (w_fs w);
         w_log := w_log w ++ [Sent (upd_user u) wait_text NoMode; Sent (upd_user u) hasil Markdown] |}.
Proof.
  intros Hr Hm Hf Htoks Heol.
  destruct (generate_total toks (parse_top_n (command_args (upd_message u)))) as (hasil & Hg & _).
  exists hasil. split; [done|]. apply (analisis_command_report _ _ doc); [done|done|].
  rewrite Hf. cbn [load_entry]. by rewrite clean_readlines_write.
Qed.

End BotTheory.

(** ** A concrete run, with the Unicode table [ucd] *)

Definition example_doc : Document :=
  {| doc_mime := u8 "text/plain"; doc_file := Readable (u8 "12" ++ nl) |}.

Definition example_update : Update :=
  {| upd_user := 42;
     upd_message := {| msg_text := Some (u8 "/analisis 3"); msg_document := None;
                       msg_reply_to := Some (Some example_doc) |} |}.

Definition example_world : World := {| w_fs := ∅; w_log := [] |}.

Lemma analisis_command_valid_witness :
  ∃ hasil,
    generate_bbfs_prediktif (load_entry (doc_file example_doc))
      (parse_top_n (command_args (upd_message example_update))) = Some hasil ∧
    analisis_command example_world example_update =
      {| w_fs := delete (file_path (upd_user example_update)) (w_fs example_world);
         w_log := w_log example_world ++ [Sent (upd_user example_update) wait_text NoMode;
                                          Sent (upd_user example_update) hasil Markdown] |}.
Proof. apply (analisis_command_valid _ example_update example_doc); reflexivity. Defined.

Lemma upload_and_analyse_witness :
  ∃ hasil,
    generate_bbfs_prediktif [[49%N; 50%N]] (parse_top_n (command_args (upd_message example_update))) = Some hasil ∧
    analisis_command example_world example_update =
      {| w_fs := delete (file_path (upd_user example_update)) (w_fs example_world);
         w_log := w_log example_world ++ [Sent (upd_user example_update) wait_text NoMode;
                                          Sent (upd_user example_update) hasil Markdown] |}.
Proof.
  apply (upload_and_analyse _ example_update example_doc [[49%N; 50%N]] [10%N]).
  - reflexivity.
  - reflexivity.
  - reflexivity.
  - apply Forall_singleton. split_and!; [discriminate| |by_decide|by_decide].
    split; intros c s' Hs; repeat (destruct s' as [|? s']; simplify_eq/=); reflexivity.
  - by left.
Defined.

(** A command addressed to another bot, [/analisis@otherbot], gets no answer
    from a bot whose username is [predictor_bot]. *)
Definition other_bot_update : Update :=
  {| upd_user := 42;
     upd_message := {| msg_text := Some (u8 "/analisis@otherbot"); msg_document := None;
                       msg_reply_to := Some (Some example_doc) |} |}.

Lemma handle_update_cases_witness :
  handle_update (λ _, []) (u8 "predictor_bot") example_world (NewMessage other_bot_update) = example_world.
Proof.
  destruct (handle_update_cases (λ _, []) (u8 "predictor_bot") example_world other_bot_update)
    as (_ & _ & _ & _ & _ & Hother & _).
  apply (Hother (u8 "/analisis@otherbot")); [reflexivity|vm_compute; by eexists|by_decide|reflexivity].
Defined.
