(* ===== verification/Concurrency.v ===== *)
(** * [analisis_command] as a coroutine (main.py lines 152-190)

    The handler is an [async def]: between two [await]s it runs without
    interruption, and at an [await] the event loop may run another update's
    handler.  The library runs one update at a time by default
    ([Bot.run_polling]); with concurrent updates enabled the handlers of
    several updates interleave at their [await]s.  A [task] is one run of
    [analisis_command]: the update, its local variables ([document],
    [top_n], [hasil_analisis]) and the [await] it is suspended at ([pc]).
    [segment] resumes a task and runs the code up to the next [await],
    including the call awaited there; [cstep] runs one segment of one task.
    A reply takes effect when [reply_text] is called.  [download_to_drive]
    suspends in its network fetch and writes the file when the fetch has
    returned, with no further suspension; the handler then reads the file,
    analyses it and calls [reply_text] before it can be suspended again, so
    the write, the read, the analysis and the reply are one segment. *)

From stdpp Require Import well_founded.
From S2P Require Import Prelude PyStr Loader Report Bot.

(** Where a task is suspended, named by what its next segment does: not
    started; after calling the waiting message (next: [get_file]); after
    calling [get_file] (next: [download_to_drive]); in the fetch of
    [download_to_drive] (next: the write, the read, the analysis and the
    report); after calling the reply with the report (next:
    [os.remove]); finished. *)
Inductive pc := AtStart | AtGetFile | AtDownload | AtAnalyse | AtRemove | Finished.

#[export] Instance pc_eq_dec : EqDecision pc.
Proof. solve_decision. Defined.

Record task := {
  t_update : Update;
  t_document : option Document;
  t_top_n : Z;
  t_hasil : option pystr;
  t_pc : pc
}.

Definition t_user (t : task) : Z := upd_user (t_update t).

Definition new_task (u : Update) : task :=
  {| t_update := u; t_document := None; t_top_n := 7; t_hasil := None; t_pc := AtStart |}.

Definition set_pc (t : task) (p : pc) : task :=
  {| t_update := t_update t; t_document := t_document t; t_top_n := t_top_n t;
     t_hasil := t_hasil t; t_pc := p |}.

Definition config : Type := World * list task.

Section Concurrency.
Context `{PyUnicode}.

(** The code of [analisis_command] from the point [t_pc t] to the next
    [await]. *)
Definition segment (w : World) (t : task) : World * task :=
  let u := t_update t in
  let uid := upd_user u in
  match t_pc t with
  | AtStart =>
      match msg_reply_to (upd_message u) with
      | None | Some None => (reply w uid wrong_command_text Markdown, set_pc t Finished)
      | Some (Some doc) =>
          if decide (doc_mime doc ≠ text_plain) then (reply w uid not_txt_text NoMode, set_pc t Finished)
          else (reply w uid wait_text NoMode,
                {| t_update := u; t_document := Some doc;
                   t_top_n := parse_top_n (command_args (upd_message u));
                   t_hasil := None; t_pc := AtGetFile |})
      end
  | AtGetFile => (w, set_pc t AtDownload)
  | AtDownload => (w, set_pc t AtAnalyse)
  | AtAnalyse =>
      match t_document t with
      | Some doc =>
          let w1 := download w (file_path uid) (doc_file doc) in
          let history := baca_history_dari_file (w_fs w1) (file_path uid) in
          match generate_bbfs_prediktif history (t_top_n t) with
          | Some hasil =>
              (reply w1 uid hasil Markdown,
               {| t_update := u; t_document := t_document t; t_top_n := t_top_n t;
                  t_hasil := Some hasil; t_pc := AtRemove |})
          | None => (w1, set_pc t Finished)
          end
      | None => (w, set_pc t Finished)
      end
  | AtRemove => (os_remove w uid (file_path uid), set_pc t Finished)
  | Finished => (w, t)
  end.

(** One segment of one unfinished task, chosen by the event loop. *)
Inductive cstep : config → config → Prop :=
  | cstep_run w ts i t :
      ts !! i = Some t → t_pc t ≠ Finished →
      cstep (w, ts) ((segment w t).1, <[i := (segment w t).2]> ts).

(** An executable scheduler: run the tasks in the order of [sched]. *)
Definition try_step (i : nat) (c : config) : option config :=
  match c.2 !! i with
  | Some t => if decide (t_pc t = Finished) then None
              else Some ((segment c.1 t).1, <[i := (segment c.1 t).2]> c.2)
  | None => None
  end.

Fixpoint run_schedule (sched : list nat) (c : config) : option config :=
  match sched with
  | [] => Some c
  | i :: sched' => try_step i c ≫= run_schedule sched'
  end.

(** A task run alone, [fuel] segments at most. *)
Fixpoint run_task (fuel : nat) (w : World) (t : task) : World * task :=
  match fuel with
  | O => (w, t)
  | S fuel' =>
      if decide (t_pc t = Finished) then (w, t)
      else let '(w', t') := segment w t in run_task fuel' w' t'
  end.

(** Segments left before the task finishes, at most. *)
Definition pc_rank (p : pc) : nat :=
  match p with
  | AtStart => 5 | AtGetFile => 4 | AtDownload => 3 | AtAnalyse => 2 | AtRemove => 1 | Finished => 0
  end.

Definition remaining (ts : list task) : nat := sum_list ((λ t, pc_rank (t_pc t)) <$> ts).

(** ** The invariant of interleaved runs *)

Definition valid_doc (t : task) (doc : Document) : Prop :=
  msg_reply_to (upd_message (t_update t)) = Some (Some doc) ∧ doc_mime doc = text_plain.

(** The report the task owes its user: the one of its own file. *)
Definition expected (t : task) (doc : Document) : option pystr :=
  generate_bbfs_prediktif (load_entry (doc_file doc)) (parse_top_n (command_args (upd_message (t_update t)))).

Definition locals_ok (t : task) (doc : Document) : Prop :=
  valid_doc t doc ∧ t_document t = Some doc ∧
  t_top_n t = parse_top_n (command_args (upd_message (t_update t))).

(** What a task owes its user, whatever the world: its locals are those
    of its update until it has a report, and the report is the one of its
    own file. *)
Definition task_inv (t : task) : Prop :=
  match t_pc t with
  | AtStart => True
  | AtGetFile | AtDownload | AtAnalyse => ∃ doc, locals_ok t doc
  | AtRemove => ∃ doc, valid_doc t doc ∧ t_hasil t = expected t doc
  | Finished => ∀ doc, valid_doc t doc → t_hasil t = expected t doc
  end.

(** A task about to remove its file finds it. *)
Definition file_inv (w : World) (t : task) : Prop :=
  t_pc t = AtRemove → is_Some (w_fs w !! file_path (t_user t)).

Definition conf_inv (c : config) : Prop :=
  NoDup (t_user <$> c.2) ∧ Forall is_sent (w_log c.1) ∧
  Forall task_inv c.2 ∧ Forall (file_inv c.1) c.2.

(** ** Lemmas *)

(** [simpl_task] reduces record projections and the world updates, and
    nothing else: the texts stay folded. *)
Ltac simpl_task :=
  cbn [fst snd t_pc t_update t_document t_hasil t_top_n w_log w_fs set_pc reply download] in *.

Lemma baca_lookup (fs : gmap pystr fs_entry) p f :
  fs !! p = Some f → baca_history_dari_file fs p = load_entry f.
Proof. intros Hf. unfold baca_history_dari_file, open_read. rewrite Hf. by destruct f. Qed.

Lemma file_inv_frame w w' t :
  w_fs w' !! file_path (t_user t) = w_fs w !! file_path (t_user t) →
  file_inv w t → file_inv w' t.
Proof. unfold file_inv. by intros ->. Qed.

Lemma segment_user w t : t_user (segment w t).2 = t_user t.
Proof.
  unfold segment. destruct (t_pc t); try done.
  - destruct (msg_reply_to _) as [[doc|]|]; [case_decide|..]; done.
  - destruct (t_document t); [|done]. by destruct (generate_bbfs_prediktif _ _).
Qed.

Lemma segment_frame w t q :
  q ≠ file_path (t_user t) → w_fs (segment w t).1 !! q = w_fs w !! q.
Proof.
  intros Hq. unfold t_user in Hq. unfold segment. destruct (t_pc t); try done.
  - destruct (msg_reply_to _) as [[doc|]|]; [case_decide|..]; done.
  - destruct (t_document t); [|done].
    destruct (generate_bbfs_prediktif _ _); cbn [fst w_fs download reply];
      by rewrite lookup_insert_ne by congruence.
  - unfold os_remove. destruct (w_fs w !! _); [|done]. cbn [fst w_fs]. by rewrite lookup_delete_ne by congruence.
Qed.

Lemma Forall_is_sent_snoc (l : list event) uid text mode :
  Forall is_sent l → Forall is_sent (l ++ [Sent uid text mode]).
Proof. intros. apply Forall_app. split; [done|]. repeat constructor. by do 3 eexists. Qed.

#[local] Hint Resolve Forall_is_sent_snoc : bbfs.

(** The resumption after the fetch reads back the file it has just written. *)
Lemma baca_after_download w p f : baca_history_dari_file (w_fs (download w p f)) p = load_entry f.
Proof. apply baca_lookup. cbn [w_fs download]. apply lookup_insert_eq. Qed.

(** A task's report obligation holds whatever the other tasks did to the
    world. *)
Lemma segment_task_inv w t : task_inv t → task_inv (segment w t).2.
Proof.
  destruct t as [u d n hs p]. unfold task_inv, segment, valid_doc, locals_ok, expected.
  cbn [t_pc t_update t_document t_top_n t_hasil set_pc]. intros Hinv. destruct p; try done.
  - destruct (msg_reply_to (upd_message u)) as [[doc|]|] eqn:Hr.
    + case_decide as Hm; simpl_task.
      * intros doc' [Hr' ?]. rewrite Hr in Hr'. simplify_eq; contradiction.
      * by exists doc.
    + simpl_task. intros doc' [Hr' _]. congruence.
    + simpl_task. intros doc' [Hr' _]. congruence.
  - destruct Hinv as (doc & Hv & -> & ->). rewrite baca_after_download.
    destruct (generate_total (load_entry (doc_file doc)) (parse_top_n (command_args (upd_message u))))
      as (hasil & Hg & _).
    rewrite Hg. simpl_task. by exists doc.
  - destruct Hinv as (doc & [Hr _] & Hh). simpl_task.
    intros doc' [Hr' _]. rewrite Hr in Hr'. by simplify_eq.
Qed.

(** The file part needs the task's own obligation, and keeps the log to
    replies. *)
Lemma segment_file_inv w t :
  task_inv t → file_inv w t → Forall is_sent (w_log w) →
  file_inv (segment w t).1 (segment w t).2 ∧ Forall is_sent (w_log (segment w t).1).
Proof.
  destruct t as [u d n hs p]. unfold file_inv, task_inv, segment, t_user, locals_ok.
  cbn [t_pc t_update t_document t_top_n t_hasil set_pc]. intros Hinv Hf Hlog. destruct p.
  - destruct (msg_reply_to (upd_message u)) as [[doc|]|];
      [case_decide|..]; simpl_task; (split; [intros [=]|auto with bbfs]).
  - simpl_task. split; [intros [=]|done].
  - simpl_task. split; [intros [=]|done].
  - destruct Hinv as (doc & _ & -> & ->). rewrite baca_after_download.
    destruct (generate_total (load_entry (doc_file doc)) (parse_top_n (command_args (upd_message u))))
      as (hasil & Hg & _).
    rewrite Hg. simpl_task. split; [|auto with bbfs]. intros _. rewrite lookup_insert_eq. by eexists.
  - destruct (Hf eq_refl) as [f Hfp]. unfold os_remove. rewrite Hfp. simpl_task. split; [intros [=]|done].
  - done.
Qed.

Lemma NoDup_users_ne (ts : list task) i j ti tj :
  NoDup (t_user <$> ts) → ts !! i = Some ti → ts !! j = Some tj → i ≠ j → t_user ti ≠ t_user tj.
Proof.
  intros Hnd Hi Hj Hij Heq. apply Hij. eapply NoDup_lookup; [exact Hnd| |].
  - by rewrite list_lookup_fmap, Hi.
  - by rewrite list_lookup_fmap, Hj, Heq.
Qed.

Lemma cstep_task_inv c c' : cstep c c' → Forall task_inv c.2 → Forall task_inv c'.2.
Proof.
  destruct 1 as [w ts i t Hi Hfin]. cbn [snd]. intros Hts.
  apply Forall_insert; [done|]. apply segment_task_inv. by eapply Forall_lookup_1.
Qed.

Lemma rtc_task_inv c c' : rtc cstep c c' → Forall task_inv c.2 → Forall task_inv c'.2.
Proof. induction 1; eauto using cstep_task_inv. Qed.

Lemma task_inv_new (us : list Update) : Forall task_inv (new_task <$> us).
Proof. apply Forall_fmap, Forall_true. intros u. exact I. Qed.

Lemma finished_reports (ts : list task) :
  Forall task_inv ts →
  Forall (λ t, t_pc t = Finished → ∀ doc,
            msg_reply_to (upd_message (t_update t)) = Some (Some doc) → doc_mime doc = text_plain →
            t_hasil t = generate_bbfs_prediktif (load_entry (doc_file doc))
                          (parse_top_n (command_args (upd_message (t_update t))))) ts.
Proof.
  intros Hts. eapply Forall_impl; [exact Hts|]. intros t Ht Hfin doc Hd Hm.
  unfold task_inv in Ht. rewrite Hfin in Ht. by apply Ht.
Qed.

Lemma cstep_inv c c' : conf_inv c → cstep c c' → conf_inv c'.
Proof.
  intros (Hnd & Hlog & Hts & Hfs) Hstep. pose proof (cstep_task_inv _ _ Hstep Hts) as Hts'.
  destruct Hstep as [w ts i t Hi Hfin]. cbn [fst snd] in *.
  destruct (segment_file_inv w t (Forall_lookup_1 _ _ _ _ Hts Hi) (Forall_lookup_1 _ _ _ _ Hfs Hi) Hlog)
    as [Hf' Hlog'].
  unfold conf_inv. cbn [fst snd]. split_and!; [| done | done |].
  - rewrite list_fmap_insert, segment_user. by rewrite list_insert_id by (by rewrite list_lookup_fmap, Hi).
  - apply Forall_lookup_2. intros j tj Hj.
    destruct (decide (i = j)) as [<-|Hij].
    + rewrite list_lookup_insert_eq in Hj by (by eapply lookup_lt_Some). by simplify_eq.
    + rewrite list_lookup_insert_ne in Hj by done.
      apply (file_inv_frame w); [|by eapply Forall_lookup_1].
      apply segment_frame. intros Heq%file_path_inj.
      by apply (NoDup_users_ne ts i j t tj).
Qed.

Lemma rtc_cstep_inv c c' : conf_inv c → rtc cstep c c' → conf_inv c'.
Proof. intros Hc Hr. induction Hr; eauto using cstep_inv. Qed.

Lemma segment_rank w t :
  t_pc t ≠ Finished → pc_rank (t_pc (segment w t).2) < pc_rank (t_pc t).
Proof.
  unfold segment. destruct (t_pc t) eqn:Hp; cbn [pc_rank t_pc set_pc snd]; try lia.
  - destruct (msg_reply_to _) as [[doc|]|]; [case_decide|..]; cbn; lia.
  - destruct (t_document t); [|cbn; lia]. destruct (generate_bbfs_prediktif _ _); cbn; lia.
  - done.
Qed.

Lemma remaining_insert ts i t t' :
  ts !! i = Some t → remaining (<[i := t']> ts) + pc_rank (t_pc t) = remaining ts + pc_rank (t_pc t').
Proof.
  unfold remaining. apply (sum_list_fmap_insert (λ t, pc_rank (t_pc t))).
Qed.

Lemma cstep_remaining c c' : cstep c c' → remaining c'.2 < remaining c.2.
Proof.
  destruct 1 as [w ts i t Hi Hfin]. cbn [snd].
  pose proof (remaining_insert ts i t (segment w t).2 Hi). pose proof (segment_rank w t Hfin). lia.
Qed.

(** Every interleaving is finite, whatever the scheduler does. *)
Lemma cstep_wf : well_founded (λ c' c, cstep c c').
Proof.
  apply (wf_projected (<) (λ c : config, remaining c.2)); [|apply lt_wf].
  intros c' c. apply cstep_remaining.
Qed.

Lemma try_step_cstep i c c' : try_step i c = Some c' → cstep c c'.
Proof.
  destruct c as [w ts]. unfold try_step. cbn [fst snd].
  destruct (ts !! i) as [t|] eqn:Hi; [|done]. case_decide; [done|]. intros [= <-]. by econstructor.
Qed.

(** A schedule the executable scheduler accepts is an interleaving. *)
Lemma run_schedule_rtc sched c c' : run_schedule sched c = Some c' → rtc cstep c c'.
Proof.
  revert c. induction sched as [|i sched IH]; intros c; cbn [run_schedule].
  - intros [= ->]. apply rtc_refl.
  - destruct (try_step i c) as [c1|] eqn:Hs; [|done]. cbn. intros Hr.
    eapply rtc_l; [by apply (try_step_cstep i)|]. by apply IH.
Qed.

(** Run alone, a task is the handler: five segments take [analisis_command]
    from its start to its end, on every branch. *)
Lemma run_task_analisis w u :
  (run_task 5 w (new_task u)).1 = analisis_command w u ∧ t_pc (run_task 5 w (new_task u)).2 = Finished.
Proof.
  unfold analisis_command, run_task, segment, new_task. simpl_task.
  rewrite !decide_False by discriminate.
  destruct (msg_reply_to (upd_message u)) as [[doc|]|]; [|done|done].
  case_decide as Hm; [done|]. simpl_task.
  rewrite !decide_False by discriminate. simpl_task.
  unfold analyse_and_reply. destruct (generate_bbfs_prediktif _ _); [|done].
  simpl_task. rewrite !decide_False by discriminate. done.
Qed.




(** ** Theorems *)

(** C5: Handlers of different users never disturb each other, however the
    event loop interleaves them: nothing raises, and every finished
    [/analisis] sent the report of its own file for its own [top_n]. *)
Theorem concurrent_distinct_users_safe (us : list Update) w c :
  NoDup (upd_user <$> us) → Forall is_sent (w_log w) →
  rtc cstep (w, new_task <$> us) c →
  Forall is_sent (w_log c.1) ∧
  Forall (λ t, t_pc t = Finished → ∀ doc,
            msg_reply_to (upd_message (t_update t)) = Some (Some doc) → doc_mime doc = text_plain →
            t_hasil t = generate_bbfs_prediktif (load_entry (doc_file doc))
                          (parse_top_n (command_args (upd_message (t_update t))))) c.2.
Proof.
  intros Hnd Hlog Hr. apply rtc_cstep_inv in Hr as (_ & Hlog' & Hts & _).
  - split; [done|]. by apply finished_reports.
  - split_and!; cbn [fst snd]; [| done | apply task_inv_new |].
    + by rewrite <- list_fmap_compose.
    + apply Forall_fmap, Forall_true. intros u Hp. discriminate Hp.
Qed.

(** C6: Whatever the users, however the handlers interleave, every
    finished [/analisis] reported on the file it downloaded itself: the
    write, the read and the analysis run without a suspension in between,
    so a handler of the same user cannot replace the file under it. *)
Theorem concurrent_reports_own_file (us : list Update) w c :
  rtc cstep (w, new_task <$> us) c →
  Forall (λ t, t_pc t = Finished → ∀ doc,
            msg_reply_to (upd_message (t_update t)) = Some (Some doc) → doc_mime doc = text_plain →
            t_hasil t = generate_bbfs_prediktif (load_entry (doc_file doc))
                          (parse_top_n (command_args (upd_message (t_update t))))) c.2.
Proof. intros Hr. apply finished_reports, (rtc_task_inv _ _ Hr), task_inv_new. Qed.

End Concurrency.

(** ** Concrete interleavings, with the Unicode table [ucd] *)

Import (notations) Stdlib.Strings.String.

Definition txt_doc (text : pystr) : Document := {| doc_mime := text_plain; doc_file := Readable text |}.

Definition upd_with (uid : Z) (text : pystr) : Update :=
  {| upd_user := uid;
     upd_message := {| msg_text := Some (u8 "/analisis"); msg_document := None;
                       msg_reply_to := Some (Some (txt_doc text)) |} |}.

(** Two users, their handlers interleaved segment by segment. *)
Lemma concurrent_distinct_users_safe_witness :
  ∃ c, run_schedule [0; 1; 0; 1; 0; 1; 0; 1; 0; 1]
         (example_world, new_task <$> [upd_with 1 (u8 "12"); upd_with 2 (u8 "34")]) = Some c ∧
  Forall is_sent (w_log c.1) ∧
  Forall (λ t, t_pc t = Finished → ∀ doc,
            msg_reply_to (upd_message (t_update t)) = Some (Some doc) → doc_mime doc = text_plain →
            t_hasil t = generate_bbfs_prediktif (load_entry (doc_file doc))
                          (parse_top_n (command_args (upd_message (t_update t))))) c.2.
Proof.
  eexists. split; [vm_compute; reflexivity|].
  apply (concurrent_distinct_users_safe [upd_with 1 (u8 "12"); upd_with 2 (u8 "34")] example_world).
  - by_decide.
  - constructor.
  - apply (run_schedule_rtc [0; 1; 0; 1; 0; 1; 0; 1; 0; 1]). vm_compute. reflexivity.
Defined.

(** One user, two handlers, the second run up to its [os.remove] between
    the first one's reply and its [os.remove]. *)
Lemma concurrent_reports_own_file_witness :
  ∃ c, run_schedule [0; 0; 0; 0; 1; 1; 1; 1; 0; 1]
         (example_world, new_task <$> [upd_with 7 (u8 "12"); upd_with 7 (u8 "34")]) = Some c ∧
  Forall (λ t, t_pc t = Finished → ∀ doc,
            msg_reply_to (upd_message (t_update t)) = Some (Some doc) → doc_mime doc = text_plain →
            t_hasil t = generate_bbfs_prediktif (load_entry (doc_file doc))
                          (parse_top_n (command_args (upd_message (t_update t))))) c.2.
Proof.
  eexists. split; [vm_compute; reflexivity|].
  apply (concurrent_reports_own_file [upd_with 7 (u8 "12"); upd_with 7 (u8 "34")] example_world).
  apply (run_schedule_rtc [0; 0; 0; 0; 1; 1; 1; 1; 0; 1]). vm_compute. reflexivity.
Defined.

